(** * scss-forge: node types and their SCSS emission routines

    A shallow embedding of the node-type table of the SCSS generator
    (the file that declares [Comment], [Identifier], ..., [StyleSheet] with
    their field schemas and [generate] routines), together with the parts of
    the surrounding library the routines call into.

    Layout
    - JavaScript values and nodes, with object identity;
    - the JavaScript operations the routines use (truthiness, string
      conversion, [join], [split], [indexOf], optional chaining);
    - printer calls and the emission monad;
    - one [generate] per node type and the dispatching [print];
    - the text printer and the entry point;
    - field schemas, validators and node constructors;
    - the properties of the generator. *)

From Stdlib Require Import List String Ascii ZArith Bool Lia DecimalString.
Import ListNotations.
Open Scope string_scope.
Open Scope list_scope.

Set Implicit Arguments.
Set Warnings "-register-all".

(* ------------------------------------------------------------------------- *)
(** ** Values                                                                 *)
(* ------------------------------------------------------------------------- *)

(** The registered node types, one per [defineType] call. *)
Inductive kind : Type :=
| KComment | KIdentifier | KBlockStatement
| KSassBoolean | KSassColor | KSassFunction | KSassList | KSassMap
| KSassMapProperty | KSassMixin | KSassNumber | KSassString | KSassValue
| KSassFunctionCall | KSassMixinCall
| KRule | KDeclaration
| KAtRule | KAtContent | KAtReturn
| KAssignment | KAssignmentPattern | KRestPattern
| KSassImport | KSassModule | KSassForward
| KIfStatement | KLogicalExpression | KCallExpression
| KNewline | KStyleSheet.

Scheme Equality for kind.

(** The [type] string of each definition (first argument of [defineType]). *)
Definition kind_name (k : kind) : string :=
  match k with
  | KComment => "Comment" | KIdentifier => "Identifier"
  | KBlockStatement => "BlockStatement"
  | KSassBoolean => "SassBoolean" | KSassColor => "SassColor"
  | KSassFunction => "SassFunction" | KSassList => "SassList"
  | KSassMap => "SassMap" | KSassMapProperty => "SassMapProperty"
  | KSassMixin => "SassMixin" | KSassNumber => "SassNumber"
  | KSassString => "SassString" | KSassValue => "SassValue"
  | KSassFunctionCall => "SassFunctionCall"
  | KSassMixinCall => "SassMixinCall"
  | KRule => "Rule" | KDeclaration => "Declaration"
  | KAtRule => "AtRule" | KAtContent => "AtContent" | KAtReturn => "AtReturn"
  | KAssignment => "Assignment" | KAssignmentPattern => "AssignmentPattern"
  | KRestPattern => "RestPattern"
  | KSassImport => "SassImport" | KSassModule => "SassModule"
  | KSassForward => "SassForward"
  | KIfStatement => "IfStatement"
  | KLogicalExpression => "LogicalExpression"
  | KCallExpression => "CallExpression"
  | KNewline => "Newline" | KStyleSheet => "StyleSheet"
  end.

(** JavaScript values as the generator meets them.  A node is an object:
    it carries the reference [ref] under which the runtime allocated it, and
    [===] on objects compares references, never contents.  Every field of a
    node holds an arbitrary value, as in the source, where the schema is only
    enforced by the constructors.  An absent field is [VUndefined].

    A number is held as the text that JavaScript prints for it (its
    [toString]): the routines only ever print a number or test it for truth,
    and both are read off that text.  Arrays are only ever inspected through
    their elements, so they carry no reference of their own.
    Objects that are no node of a registered type are left out.  In a heap
    a reference names one object; the examples below use a reference for one
    node only. *)
Inductive value : Type :=
| VUndefined
| VNull
| VBool (b : bool)
| VNumber (text : string)
| VStr (s : string)
| VArr (elems : list value)
| VObj (ref : nat) (n : node)
with node : Type :=
| Comment (value_ : value)
| Identifier (name : value)
| BlockStatement (body : value)
| SassBoolean (value_ : value)
| SassColor (value_ : value)
| SassFunction (id params body : value)
| SassList (elements : value)
| SassMap (properties : value)
| SassMapProperty (key value_ quoted : value)
| SassMixin (id params body : value)
| SassNumber (value_ : value)
| SassString (value_ : value)
| SassValue (value_ : value)
| SassFunctionCall (id params : value)
| SassMixinCall (id params body : value)
| Rule (declarations selectors : value)
| Declaration (property value_ : value)
| AtRule (name media children : value)
| AtContent
| AtReturn (argument : value)
| Assignment (id init default global : value)
| AssignmentPattern (left right : value)
| RestPattern (id : value)
| SassImport (path : value)
| SassModule (path : value)
| SassForward (path : value)
| IfStatement (test consequent alternate : value)
| LogicalExpression (left operator right : value)
| CallExpression (callee arguments : value)
| Newline
| StyleSheet (children : value).

(** [node.type] *)
Definition kind_of (n : node) : kind :=
  match n with
  | Comment _ => KComment | Identifier _ => KIdentifier
  | BlockStatement _ => KBlockStatement
  | SassBoolean _ => KSassBoolean | SassColor _ => KSassColor
  | SassFunction _ _ _ => KSassFunction | SassList _ => KSassList
  | SassMap _ => KSassMap | SassMapProperty _ _ _ => KSassMapProperty
  | SassMixin _ _ _ => KSassMixin | SassNumber _ => KSassNumber
  | SassString _ => KSassString | SassValue _ => KSassValue
  | SassFunctionCall _ _ => KSassFunctionCall
  | SassMixinCall _ _ _ => KSassMixinCall
  | Rule _ _ => KRule | Declaration _ _ => KDeclaration
  | AtRule _ _ _ => KAtRule | AtContent => KAtContent
  | AtReturn _ => KAtReturn
  | Assignment _ _ _ _ => KAssignment
  | AssignmentPattern _ _ => KAssignmentPattern
  | RestPattern _ => KRestPattern
  | SassImport _ => KSassImport | SassModule _ => KSassModule
  | SassForward _ => KSassForward
  | IfStatement _ _ _ => KIfStatement
  | LogicalExpression _ _ _ => KLogicalExpression
  | CallExpression _ _ => KCallExpression
  | Newline => KNewline | StyleSheet _ => KStyleSheet
  end.

(** [v.type] for a value that is neither [undefined] nor [null]: the type of
    a node, [undefined] (here [None]) on primitives and arrays. *)
Definition type_of (v : value) : option kind :=
  match v with
  | VObj _ n => Some (kind_of n)
  | _ => None
  end.

(** [v.type === K.type] *)
Definition has_type (v : value) (k : kind) : bool :=
  match type_of v with
  | Some k' => kind_beq k' k
  | None => false
  end.

(** [v.body] and [v.children] for a value that is neither [undefined] nor
    [null].  Only these two fields are ever read on a parent. *)
Definition get_body (v : value) : value :=
  match v with
  | VObj _ (BlockStatement b) => b
  | VObj _ (SassFunction _ _ b) => b
  | VObj _ (SassMixin _ _ b) => b
  | VObj _ (SassMixinCall _ _ b) => b
  | _ => VUndefined
  end.

Definition get_children (v : value) : value :=
  match v with
  | VObj _ (AtRule _ _ c) => c
  | VObj _ (StyleSheet c) => c
  | _ => VUndefined
  end.

(* ------------------------------------------------------------------------- *)
(** ** JavaScript operations                                                  *)
(* ------------------------------------------------------------------------- *)

Module JS.

(** ToBoolean.  The numbers that are false are [0], [-0], which prints as
    [0], and [NaN]. *)
Definition truthy (v : value) : bool :=
  match v with
  | VUndefined | VNull => false
  | VBool b => b
  | VNumber text => negb ((text =? "0") || (text =? "NaN"))
  | VStr s => negb (s =? "")
  | VArr _ | VObj _ _ => true
  end.

(** [v === undefined || v === null] *)
Definition nullish (v : value) : bool :=
  match v with
  | VUndefined | VNull => true
  | _ => false
  end.

(** [a || b] *)
Definition or (a b : value) : value := if truthy a then a else b.

(** [Array.isArray(v)] *)
Definition isArray (v : value) : bool :=
  match v with VArr _ => true | _ => false end.

(** Identity of objects: [a === b] when [b] is a node. *)
Definition same_object (a b : value) : bool :=
  match a, b with
  | VObj r1 _, VObj r2 _ => Nat.eqb r1 r2
  | _, _ => false
  end.

(** [l.indexOf(x)] for a node [x]; [-1] when absent. *)
Fixpoint indexOf (l : list value) (x : value) : Z :=
  match l with
  | [] => (-1)%Z
  | y :: rest =>
      if same_object y x then 0%Z
      else let i := indexOf rest x in
           if (i =? -1)%Z then (-1)%Z else (i + 1)%Z
  end.

Definition string_of_Z (n : Z) : string :=
  NilZero.string_of_int (Z.to_int n).

(** ToString, and [Array.prototype.join], which prints [undefined] and
    [null] elements as the empty string. *)
Fixpoint toString (v : value) : string :=
  match v with
  | VUndefined => "undefined"
  | VNull => "null"
  | VBool true => "true"
  | VBool false => "false"
  | VNumber text => text
  | VStr s => s
  | VArr l =>
      (fix join_elems (l : list value) : string :=
         match l with
         | [] => ""
         | x :: rest =>
             let sx := if nullish x then "" else toString x in
             match rest with
             | [] => sx
             | _ :: _ => (sx ++ "," ++ join_elems rest)%string
             end
         end) l
  | VObj _ _ => "[object Object]"
  end.

Definition join (sep : string) (l : list value) : string :=
  String.concat sep
    (map (fun x => if nullish x then "" else toString x) l).

(** [s.split('\n')] reads [s] left to right, closing a piece at every
    line feed; a string of [n] line feeds has [n + 1] pieces. *)
Definition LF : ascii := "010"%char.

Fixpoint split_lines (s : string) : list string :=
  match s with
  | EmptyString => [""]
  | String c rest =>
      if Ascii.eqb c LF then "" :: split_lines rest
      else match split_lines rest with
           | [] => [String c ""]
           | piece :: pieces => String c piece :: pieces
           end
  end.

End JS.

(** The number of an integer [n] that JavaScript holds exactly
    ([|n| < 2^53]), which prints as its decimal numeral. *)
Definition VNum (n : Z) : value := VNumber (JS.string_of_Z n).

(* ------------------------------------------------------------------------- *)
(** ** Errors, printer calls and the emission monad                           *)
(* ------------------------------------------------------------------------- *)

Inductive error : Type :=
| SchemaValidationError (type field : string) (offending : value)
| UnknownNodeType
| TypeError.

Inductive result (A : Type) : Type :=
| Ok (a : A)
| Err (e : error).

Arguments Ok {A} a.
Arguments Err {A} e.

(** One call on the printer.  The emission routines only ever call into the
    printer; they never read anything back from it, so a run of a routine is
    the sequence of calls it makes, or the exception that ends it.  [token]
    receives the value as passed (the printer does the conversion to text);
    [blockStart] and [blockEnd] record whether the delimiter was passed. *)
Inductive call : Type :=
| PToken (v : value)
| PSpace
| PNewline
| PMaybeNewline
| PBlockStart (open : option string)
| PBlockEnd (close : option string).

Definition Emit : Type := result (list call).

Definition skip : Emit := Ok [].

Definition seq (a b : Emit) : Emit :=
  match a with
  | Err e => Err e
  | Ok xs => match b with
             | Err e => Err e
             | Ok ys => Ok (xs ++ ys)
             end
  end.

Notation "a ;; b" := (seq a b) (at level 61, right associativity).

Definition throw (e : error) : Emit := Err e.

Module printer.
Definition token (v : value) : Emit := Ok [PToken v].
Definition str (s : string) : Emit := Ok [PToken (VStr s)].
Definition space : Emit := Ok [PSpace].
Definition newline : Emit := Ok [PNewline].
Definition maybeNewline : Emit := Ok [PMaybeNewline].
Definition blockStart (open : option string) : Emit := Ok [PBlockStart open].
Definition blockEnd (close : option string) : Emit := Ok [PBlockEnd close].
End printer.

(** The loop shared by every collection:
    [for (i = 0; i < l.length; i++) { body(l[i]); if (i !== l.length - 1) { between } }] *)
Definition for_each (A : Type) (body : A -> Emit) (between : Emit)
  : list A -> Emit :=
  fix loop (l : list A) : Emit :=
    match l with
    | [] => skip
    | x :: rest =>
        match rest with
        | [] => body x
        | _ :: _ => body x ;; between ;; loop rest
        end
    end.

(** The same loop over a field that the routine indexes without checking that
    it is an array ([node.body!], [node.elements!], ...).  [undefined] and
    [null] have no [length]; a string is indexed character by character and
    a character is no node, so the first iteration fails in the dispatch;
    any other value has an undefined [length] and the loop does not run. *)
Definition for_each_in (body : value -> Emit) (between : Emit)
  (collection : value) : Emit :=
  match collection with
  | VArr l => for_each body between l
  | VUndefined | VNull => throw TypeError
  | VStr s => if (s =? "") then skip else throw UnknownNodeType
  | VBool _ | VNumber _ | VObj _ _ => skip
  end.


(* ------------------------------------------------------------------------- *)
(** ** Emission routines                                                      *)
(* ------------------------------------------------------------------------- *)

(** Each module below is one [defineType] entry.  Its [generate] takes the
    printer's [print] method (the dispatch back into this table), the node
    object itself, the parent it was called with ([VUndefined] when the
    caller passed none), and the node's fields. *)

Import printer.

Definition printer_print : Type := value -> value -> Emit.

Module Comment.
Definition generate (value_ : value) : Emit :=
  match value_ with
  | VUndefined | VNull => skip
  | VStr s =>
      if (s =? "") then skip
      else for_each (fun line => str "// " ;; str line) newline
             (JS.split_lines s)
  | VBool _ | VNumber _ | VArr _ | VObj _ _ => throw TypeError
  end.
End Comment.

Module Identifier.
(** The parent test of the routine, disjunct by disjunct. *)
Definition takes_sigil (parent : value) : bool :=
  JS.truthy parent &&
  (has_type parent KAssignment ||
   has_type parent KAssignmentPattern ||
   has_type parent KCallExpression ||
   has_type parent KLogicalExpression ||
   has_type parent KSassMixin ||
   has_type parent KSassList ||
   has_type parent KRestPattern ||
   has_type parent KSassFunction).

Definition generate (parent : value) (name : value) : Emit :=
  (if takes_sigil parent then str "$" else skip) ;;
  token name.
End Identifier.

Module BlockStatement.
Definition generate (print : printer_print) (node : value) (body : value)
  : Emit :=
  blockStart None ;;
  for_each_in (fun child => print child node) newline body ;;
  blockEnd None.
End BlockStatement.

Module SassBoolean.
Definition generate (value_ : value) : Emit := token value_.
End SassBoolean.

Module SassColor.
Definition generate (value_ : value) : Emit := token value_.
End SassColor.

(** The parameter loop of [SassFunction], [SassMixin] and [CallExpression]:
    it runs only under [Array.isArray]. *)
Definition if_array (collection : value) (body : list value -> Emit) : Emit :=
  match collection with
  | VArr l => body l
  | _ => skip
  end.

Definition comma : Emit := str "," ;; space.

Module SassFunction.
Definition generate (print : printer_print) (node parent : value)
  (id params body : value) : Emit :=
  str "@function" ;;
  space ;;
  print id parent ;;
  str "(" ;;
  if_array params (for_each (fun param => print param node) comma) ;;
  str ")" ;;
  space ;;
  print body parent.
End SassFunction.

Module SassList.
Definition generate (print : printer_print) (node : value) (elements : value)
  : Emit :=
  str "(" ;;
  for_each_in (fun element => print element node) comma elements ;;
  str ")".
End SassList.

Module SassMap.
Definition generate (print : printer_print) (properties : value) : Emit :=
  blockStart (Some "(") ;;
  for_each_in (fun property => print property VUndefined)
    (str "," ;; newline) properties ;;
  blockEnd (Some ")").
End SassMap.

Module SassMapProperty.
Definition generate (print : printer_print) (node : value)
  (key value_ quoted : value) : Emit :=
  (if JS.truthy quoted
   then str "'" ;; print key node ;; str "'"
   else print key node) ;;
  str ":" ;;
  space ;;
  print value_ node.
End SassMapProperty.

Module SassMixin.
Definition generate (print : printer_print) (node parent : value)
  (id params body : value) : Emit :=
  str "@mixin" ;;
  space ;;
  print id parent ;;
  str "(" ;;
  if_array params (for_each (fun param => print param node) comma) ;;
  str ")" ;;
  space ;;
  print body parent.
End SassMixin.

Module SassNumber.
Definition generate (value_ : value) : Emit := token value_.
End SassNumber.

Module SassString.
Definition generate (value_ : value) : Emit :=
  str ("'" ++ JS.toString value_ ++ "'")%string.
End SassString.

Module SassValue.
Definition generate (value_ : value) : Emit := token value_.
End SassValue.

(** The parameter loop of the two call forms: an [Identifier] parameter gets
    its sigil from the loop, not from its own routine.  Reading [param.type]
    fails on [undefined] and [null]. *)
Definition call_param (print : printer_print) (node : value) (param : value)
  : Emit :=
  (if JS.nullish param then throw TypeError
   else if has_type param KIdentifier then str "$" else skip) ;;
  print param node.

Module SassFunctionCall.
Definition generate (print : printer_print) (node : value)
  (id params : value) : Emit :=
  space ;;
  print id VUndefined ;;
  str "(" ;;
  if_array params (for_each (call_param print node) comma) ;;
  str ")".
End SassFunctionCall.

Module SassMixinCall.
Definition generate (print : printer_print) (node : value)
  (id params body : value) : Emit :=
  str "@include" ;;
  space ;;
  print id VUndefined ;;
  str "(" ;;
  if_array params (for_each (call_param print node) comma) ;;
  str ")" ;;
  (if JS.truthy body then print body node else skip) ;;
  str ";".
End SassMixinCall.

(** [v.length > n] for a value that is neither [undefined] nor [null]; the
    [length] of anything but an array or a string is [undefined], and
    [undefined > n] is false. *)
Definition length_gt (v : value) (n : nat) : bool :=
  match v with
  | VArr l => Nat.ltb n (List.length l)
  | VStr s => Nat.ltb n (String.length s)
  | _ => false
  end.

Module Rule.
(** [node.selectors?.join(', ')] *)
Definition selectors_text (selectors : value) : result value :=
  match selectors with
  | VUndefined | VNull => Ok VUndefined
  | VArr l => Ok (VStr (JS.join ", " l))
  | VBool _ | VNumber _ | VStr _ | VObj _ _ => Err TypeError
  end.

Definition generate (print : printer_print) (node : value)
  (declarations selectors : value) : Emit :=
  match selectors_text selectors with
  | Err e => throw e
  | Ok text =>
      token text ;;
      space ;;
      blockStart None ;;
      for_each_in (fun declaration => print declaration node) newline
        declarations ;;
      blockEnd None
  end.
End Rule.

Module Declaration.
Definition generate (print : printer_print) (property value_ : value)
  : Emit :=
  token property ;;
  str ":" ;;
  space ;;
  match value_ with
  | VStr _ => token value_
  | _ => print value_ VUndefined
  end ;;
  str ";".
End Declaration.

Module AtRule.
Definition generate (print : printer_print) (node : value)
  (name media children : value) : Emit :=
  str ("@" ++ JS.toString name)%string ;;
  space ;;
  token media ;;
  space ;;
  if JS.truthy children && length_gt children 0
  then blockStart None ;;
       for_each_in (fun child => print child node) newline children ;;
       blockEnd None
  else skip.
End AtRule.

(** [parent?.body?.indexOf(node) !== 0].  Each [?.] stops at [undefined] and
    [null] with [undefined], which is not [0].  On an array [indexOf]
    compares by identity; on a string it searches for the text of the node;
    no other value has an [indexOf] to call. *)
Definition not_first_in_body (parent node : value) : result bool :=
  if JS.nullish parent then Ok true
  else match get_body parent with
       | VUndefined | VNull => Ok true
       | VArr l => Ok (negb (JS.indexOf l node =? 0)%Z)
       | VStr s => Ok (negb (String.prefix (JS.toString node) s))
       | VBool _ | VNumber _ | VObj _ _ => Err TypeError
       end.

Definition when (condition : result bool) (body : Emit) : Emit :=
  match condition with
  | Err e => throw e
  | Ok true => body
  | Ok false => skip
  end.

Module AtContent.
Definition generate (node parent : value) : Emit :=
  when (not_first_in_body parent node) maybeNewline ;;
  str "@content;".
End AtContent.

Module AtReturn.
Definition generate (print : printer_print) (node parent : value)
  (argument : value) : Emit :=
  when (not_first_in_body parent node) maybeNewline ;;
  str "@return" ;;
  space ;;
  print argument node ;;
  str ";".
End AtReturn.

Module Assignment.
(** [collection.filter((node) => node.type === Assignment.type)]; the
    callback reads [type] on every element, which fails on [undefined] and
    [null]. *)
Fixpoint assignments_of (collection : list value) : result (list value) :=
  match collection with
  | [] => Ok []
  | x :: rest =>
      if JS.nullish x then Err TypeError
      else match assignments_of rest with
           | Err e => Err e
           | Ok found =>
               Ok (if has_type x KAssignment then x :: found else found)
           end
  end.

(** The trailing block of the routine, under [if (parent)]. *)
Definition separator (node parent : value) : Emit :=
  let collection := JS.or (get_children parent) (get_body parent) in
  if JS.truthy collection && length_gt collection 1
  then match collection with
       | VArr l =>
           match assignments_of l with
           | Err e => throw e
           | Ok assignments =>
               let n := Z.of_nat (List.length assignments) in
               if ((n =? 1) || (JS.indexOf assignments node =? n - 1))%Z
               then newline
               else skip
           end
       | _ => throw TypeError
       end
  else skip.

Definition generate (print : printer_print) (node parent : value)
  (id init default global : value) : Emit :=
  print id node ;;
  str ":" ;;
  space ;;
  print init node ;;
  (if JS.truthy default
   then space ;;
        str "!default" ;;
        (if JS.truthy global then space else skip)
   else skip) ;;
  (if JS.truthy global then str "!global" else skip) ;;
  str ";" ;;
  (if JS.truthy parent then separator node parent else skip).
End Assignment.

Module AssignmentPattern.
Definition generate (print : printer_print) (node : value)
  (left right : value) : Emit :=
  print left node ;;
  str ":" ;;
  space ;;
  print right node.
End AssignmentPattern.

Module RestPattern.
Definition generate (print : printer_print) (parent : value) (id : value)
  : Emit :=
  print id parent ;;
  str "...".
End RestPattern.

(** [@import], [@use] and [@forward] share one shape. *)
Definition load_statement (keyword : string) (path : value) : Emit :=
  str keyword ;;
  space ;;
  str ("'" ++ JS.toString path ++ "'")%string ;;
  str ";".

Module SassImport.
Definition generate (path : value) : Emit := load_statement "@import" path.
End SassImport.

Module SassModule.
Definition generate (path : value) : Emit := load_statement "@use" path.
End SassModule.

Module SassForward.
Definition generate (path : value) : Emit := load_statement "@forward" path.
End SassForward.

Module IfStatement.
Definition generate (print : printer_print) (node parent : value)
  (test consequent alternate : value) : Emit :=
  (if JS.truthy parent && has_type parent KIfStatement
   then space ;; str "if"
   else str "@if") ;;
  space ;;
  print test node ;;
  print consequent node ;;
  (if JS.truthy alternate
   then str "@else" ;; print alternate node
   else skip).
End IfStatement.

Module LogicalExpression.
Definition generate (print : printer_print) (node : value)
  (left operator right : value) : Emit :=
  print left node ;;
  space ;;
  token operator ;;
  space ;;
  print right node.
End LogicalExpression.

Module CallExpression.
Definition generate (print : printer_print) (node : value)
  (callee arguments : value) : Emit :=
  print callee VUndefined ;;
  str "(" ;;
  if_array arguments (for_each (fun argument => print argument node) comma) ;;
  str ")".
End CallExpression.

Module Newline.
Definition generate : Emit := newline.
End Newline.

Module StyleSheet.
Definition generate (print : printer_print) (node : value) (children : value)
  : Emit :=
  for_each_in (fun child => print child node) newline children.
End StyleSheet.

(** Modelled from the spec: the printer's [print] method, which is not among
    the sources.  It resolves the node's type and runs that definition's
    [generate] with the node and the parent it was given; a value that is no
    node of a registered type ends the run with [UnknownNodeType]. *)
Fixpoint print (node parent : value) {struct node} : Emit :=
  match node with
  | VObj _ n =>
      match n with
      | Comment v => Comment.generate v
      | Identifier name => Identifier.generate parent name
      | BlockStatement body => BlockStatement.generate print node body
      | SassBoolean v => SassBoolean.generate v
      | SassColor v => SassColor.generate v
      | SassFunction id params body =>
          SassFunction.generate print node parent id params body
      | SassList elements => SassList.generate print node elements
      | SassMap properties => SassMap.generate print properties
      | SassMapProperty key v quoted =>
          SassMapProperty.generate print node key v quoted
      | SassMixin id params body =>
          SassMixin.generate print node parent id params body
      | SassNumber v => SassNumber.generate v
      | SassString v => SassString.generate v
      | SassValue v => SassValue.generate v
      | SassFunctionCall id params =>
          SassFunctionCall.generate print node id params
      | SassMixinCall id params body =>
          SassMixinCall.generate print node id params body
      | Rule declarations selectors =>
          Rule.generate print node declarations selectors
      | Declaration property v => Declaration.generate print property v
      | AtRule name media children =>
          AtRule.generate print node name media children
      | AtContent => AtContent.generate node parent
      | AtReturn argument => AtReturn.generate print node parent argument
      | Assignment id init default global =>
          Assignment.generate print node parent id init default global
      | AssignmentPattern lhs rhs =>
          AssignmentPattern.generate print node lhs rhs
      | RestPattern id => RestPattern.generate print parent id
      | SassImport path => SassImport.generate path
      | SassModule path => SassModule.generate path
      | SassForward path => SassForward.generate path
      | IfStatement test consequent alternate =>
          IfStatement.generate print node parent test consequent alternate
      | LogicalExpression lhs operator rhs =>
          LogicalExpression.generate print node lhs operator rhs
      | CallExpression callee arguments =>
          CallExpression.generate print node callee arguments
      | Newline => Newline.generate
      | StyleSheet children => StyleSheet.generate print node children
      end
  | _ => throw UnknownNodeType
  end.

(* ------------------------------------------------------------------------- *)
(** ** The text printer and the entry point                                   *)
(* ------------------------------------------------------------------------- *)

(** Modelled from the spec: the printer, which is not among the sources.  It
    is a token sink whose state is the text so far, the indent depth, a
    start-of-line flag and the pending separator.  [token] appends the text
    of its argument; [space] asks for a single space, which stays pending
    until the next token is written in front of which it goes, so that
    spaces asked for in a row coalesce and a space with nothing after it on
    its line leaves no text; [newline] ends the line, and the indent of the
    depth then current is written with the next token; [maybeNewline] is
    [newline] unless the cursor is at the start of a line; [blockStart]
    places the opening delimiter, deepens the indent and ends the line, and
    it sets the brace (the delimiter when none is given) off from what
    precedes it on its line by one space; [blockEnd] restores the indent,
    ends the line and writes the closing delimiter (['}'] unless given).
    One level of indent is two spaces.  With these rules the printer renders
    the three scenarios of the spec as the spec has them: the single rule,
    the mixin call with a block and the empty at-rule. *)
Module Printer.

Record state : Type := mk {
  buffer : string;
  indentLevel : nat;
  lineStart : bool;
  pendingSpace : bool
}.

Definition create : state := mk "" 0 true false.

Fixpoint indentation (depth : nat) : string :=
  match depth with
  | O => ""
  | S d => ("  " ++ indentation d)%string
  end.

Definition write (text : string) (p : state) : state :=
  let lead := if lineStart p then indentation (indentLevel p) else "" in
  let gap := if pendingSpace p then " " else "" in
  mk (buffer p ++ lead ++ gap ++ text)%string (indentLevel p) false false.

Definition token (v : value) (p : state) : state := write (JS.toString v) p.

Definition space (p : state) : state :=
  mk (buffer p) (indentLevel p) (lineStart p) true.

Definition newline (p : state) : state :=
  mk (buffer p ++ String JS.LF "")%string (indentLevel p) true false.

Definition maybeNewline (p : state) : state :=
  if lineStart p then p else newline p.

Definition delimiter (given : option string) (default : string) : string :=
  match given with
  | Some d => d
  | None => default
  end.

(** The space in front of a brace that does not open its line. *)
Definition before_brace (open : option string) (p : state) : state :=
  match open with
  | None => if lineStart p then p else space p
  | Some _ => p
  end.

Definition blockStart (open : option string) (p : state) : state :=
  let p1 := write (delimiter open "{") (before_brace open p) in
  newline (mk (buffer p1) (S (indentLevel p1)) (lineStart p1)
             (pendingSpace p1)).

(** Every [blockEnd] of the routines follows a [blockStart] of the same
    routine, so the depth it restores is never below zero. *)
Definition blockEnd (close : option string) (p : state) : state :=
  let p1 := newline (mk (buffer p) (Nat.pred (indentLevel p)) (lineStart p)
                       (pendingSpace p)) in
  write (delimiter close "}") p1.

Definition perform (p : state) (c : call) : state :=
  match c with
  | PToken v => token v p
  | PSpace => space p
  | PNewline => newline p
  | PMaybeNewline => maybeNewline p
  | PBlockStart open => blockStart open p
  | PBlockEnd close => blockEnd close p
  end.

Definition run (calls : list call) (p : state) : state :=
  fold_left perform calls p.

Definition get (p : state) : string := buffer p.

End Printer.

(** Modelled from the spec: the entry point.  It makes a printer of its own,
    prints the root with the parent it was given, and returns the text; when
    the run fails there is no text. *)
Definition generate_from (p : Printer.state) (ast parent : value)
  : result string :=
  match print ast parent with
  | Err e => Err e
  | Ok calls => Ok (Printer.get (Printer.run calls p))
  end.

Definition generate (ast parent : value) : result string :=
  generate_from Printer.create ast parent.

(* ------------------------------------------------------------------------- *)
(** ** Field schemas and node constructors                                    *)
(* ------------------------------------------------------------------------- *)

Inductive primitive : Type := TString | TNumber | TBoolean.

(** Modelled from the spec: the validator combinators of the [assert]
    module, which is not among the sources.  A validator is kept as the
    expression that builds it, and [accepts] is its verdict on a value. *)
Inductive validator : Type :=
| assertValueType (t : primitive)
| assertType (k : kind)
| assertOneOf (alternatives : list validator)
| arrayOf (element : validator)
| assertAny.

Fixpoint accepts (check : validator) (v : value) : bool :=
  match check with
  | assertValueType TString => match v with VStr _ => true | _ => false end
  | assertValueType TNumber => match v with VNumber _ => true | _ => false end
  | assertValueType TBoolean => match v with VBool _ => true | _ => false end
  | assertType k => has_type v k
  | assertOneOf alternatives =>
      existsb (fun alternative => accepts alternative v) alternatives
  | arrayOf element =>
      match v with
      | VArr l => forallb (accepts element) l
      | _ => false
      end
  | assertAny => true
  end.

Record field : Type := Field {
  field_name : string;
  optional : bool;
  validate : validator
}.

Definition required (name : string) (check : validator) : field :=
  Field name false check.

Definition optionally (name : string) (check : validator) : field :=
  Field name true check.

Definition one_of_types (ks : list kind) : validator :=
  assertOneOf (map assertType ks).

(** The [fields] of every definition, in the order they are declared.  A
    validator written as a thunk is the validator it returns.  The [value]
    of [SassMapProperty] lists the definitions themselves; they are read as
    references to their types. *)
Definition fields (k : kind) : list field :=
  match k with
  | KComment => [required "value" (assertValueType TString)]
  | KIdentifier => [required "name" (assertValueType TString)]
  | KBlockStatement => [required "body" (arrayOf assertAny)]
  | KSassBoolean => [required "value" (assertValueType TBoolean)]
  | KSassColor => [required "value" (assertValueType TString)]
  | KSassFunction =>
      [required "id" (assertType KIdentifier);
       optionally "params"
         (arrayOf (one_of_types [KAssignmentPattern; KIdentifier]));
       required "body" (assertType KBlockStatement)]
  | KSassList =>
      [required "elements"
         (arrayOf (one_of_types [KSassBoolean; KSassList; KSassMap;
                                 KSassNumber; KSassString; KIdentifier]))]
  | KSassMap => [required "properties" (arrayOf (assertType KSassMapProperty))]
  | KSassMapProperty =>
      [required "key" (assertType KIdentifier);
       required "value"
         (one_of_types [KSassBoolean; KSassNumber; KSassString; KSassList;
                        KSassMap]);
       optionally "quoted" (assertValueType TBoolean)]
  | KSassMixin =>
      [required "id" (assertType KIdentifier);
       optionally "params"
         (arrayOf (one_of_types [KAssignmentPattern; KIdentifier]));
       required "body" (assertType KBlockStatement)]
  | KSassNumber => [required "value" (assertValueType TNumber)]
  | KSassString => [required "value" (assertValueType TString)]
  | KSassValue => [required "value" assertAny]
  | KSassFunctionCall =>
      [required "id" (assertType KIdentifier);
       optionally "params"
         (arrayOf (one_of_types [KIdentifier; KSassBoolean; KSassList;
                                 KSassMap; KSassNumber; KSassString;
                                 KSassValue]))]
  | KSassMixinCall =>
      [required "id" (assertType KIdentifier);
       optionally "params"
         (arrayOf (one_of_types [KIdentifier; KSassBoolean; KSassList;
                                 KSassMap; KSassNumber; KSassString]));
       optionally "body" (assertType KBlockStatement)]
  | KRule =>
      [required "declarations" (arrayOf (assertType KDeclaration));
       required "selectors" (arrayOf (assertValueType TString))]
  | KDeclaration =>
      [required "property" (assertValueType TString);
       required "value"
         (assertOneOf [assertValueType TString; assertType KCallExpression])]
  | KAtRule =>
      [required "name" (assertValueType TString);
       required "media" (assertValueType TString);
       required "children" (arrayOf (one_of_types [KRule]))]
  | KAtContent => []
  | KAtReturn => [required "argument" assertAny]
  | KAssignment =>
      [required "id" (assertType KIdentifier);
       required "init"
         (one_of_types [KCallExpression; KSassBoolean; KSassColor; KSassList;
                        KSassMap; KSassNumber; KSassString;
                        KSassFunctionCall]);
       optionally "default" (assertValueType TBoolean);
       optionally "global" (assertValueType TBoolean)]
  | KAssignmentPattern =>
      [required "left" (assertType KIdentifier); required "right" assertAny]
  | KRestPattern => [required "id" (assertType KIdentifier)]
  | KSassImport => [required "path" (assertValueType TString)]
  | KSassModule => [required "path" (assertValueType TString)]
  | KSassForward => [required "path" (assertValueType TString)]
  | KIfStatement =>
      [required "test" assertAny;
       optionally "consequent" (assertType KBlockStatement);
       optionally "alternate" (one_of_types [KIfStatement; KBlockStatement])]
  | KLogicalExpression =>
      [required "left" assertAny;
       required "operator" (assertValueType TString);
       required "right" assertAny]
  | KCallExpression =>
      [required "callee" (assertType KIdentifier);
       optionally "arguments" (arrayOf assertAny)]
  | KNewline => []
  | KStyleSheet =>
      [required "children"
         (arrayOf (one_of_types [KAssignment; KAtRule; KComment; KIfStatement;
                                 KRule; KSassFunction; KSassImport; KSassMixin;
                                 KSassMixinCall; KNewline]))]
  end.

(** The field map handed to a constructor: the own properties of the
    argument object.  A name that is not bound reads as [undefined]. *)
Definition props : Type := list (string * value).

Fixpoint prop (name : string) (given : props) : value :=
  match given with
  | [] => VUndefined
  | (key, v) :: rest => if (key =? name) then v else prop name rest
  end.

(** The node of type [k] whose fields are read from [given]. *)
Definition node_of (k : kind) (given : props) : node :=
  let get name := prop name given in
  match k with
  | KComment => Comment (get "value")
  | KIdentifier => Identifier (get "name")
  | KBlockStatement => BlockStatement (get "body")
  | KSassBoolean => SassBoolean (get "value")
  | KSassColor => SassColor (get "value")
  | KSassFunction => SassFunction (get "id") (get "params") (get "body")
  | KSassList => SassList (get "elements")
  | KSassMap => SassMap (get "properties")
  | KSassMapProperty =>
      SassMapProperty (get "key") (get "value") (get "quoted")
  | KSassMixin => SassMixin (get "id") (get "params") (get "body")
  | KSassNumber => SassNumber (get "value")
  | KSassString => SassString (get "value")
  | KSassValue => SassValue (get "value")
  | KSassFunctionCall => SassFunctionCall (get "id") (get "params")
  | KSassMixinCall => SassMixinCall (get "id") (get "params") (get "body")
  | KRule => Rule (get "declarations") (get "selectors")
  | KDeclaration => Declaration (get "property") (get "value")
  | KAtRule => AtRule (get "name") (get "media") (get "children")
  | KAtContent => AtContent
  | KAtReturn => AtReturn (get "argument")
  | KAssignment =>
      Assignment (get "id") (get "init") (get "default") (get "global")
  | KAssignmentPattern => AssignmentPattern (get "left") (get "right")
  | KRestPattern => RestPattern (get "id")
  | KSassImport => SassImport (get "path")
  | KSassModule => SassModule (get "path")
  | KSassForward => SassForward (get "path")
  | KIfStatement =>
      IfStatement (get "test") (get "consequent") (get "alternate")
  | KLogicalExpression =>
      LogicalExpression (get "left") (get "operator") (get "right")
  | KCallExpression => CallExpression (get "callee") (get "arguments")
  | KNewline => Newline
  | KStyleSheet => StyleSheet (get "children")
  end.

Definition is_undefined (v : value) : bool :=
  match v with VUndefined => true | _ => false end.

(** A field is violated when its validator rejects the value supplied for
    it; an optional field left [undefined] is not validated. *)
Definition violated (given : props) (f : field) : bool :=
  let v := prop (field_name f) given in
  if optional f && is_undefined v then false
  else negb (accepts (validate f) v).

(** Modelled from the spec: the constructor that [makeInvocableDefinition]
    derives from a definition, which is not among the sources.  It runs the
    validators in the order of the schema and stops at the first field that
    is violated, with an error that names the type, the field and the value;
    otherwise it returns the node, allocated at [ref]. *)
Definition makeInvocableDefinition (k : kind) (given : props) (ref : nat)
  : result value :=
  match find (violated given) (fields k) with
  | Some f =>
      Err (SchemaValidationError (kind_name k) (field_name f)
             (prop (field_name f) given))
  | None => Ok (VObj ref (node_of k given))
  end.

(* ------------------------------------------------------------------------- *)
(** ** Vocabulary of the properties                                           *)
(* ------------------------------------------------------------------------- *)

(** The calls of a loop whose iterations made the calls [pieces], with the
    calls [between] after every iteration but the last. *)
Fixpoint interleave (between : list call) (pieces : list (list call))
  : list call :=
  match pieces with
  | [] => []
  | piece :: rest =>
      match rest with
      | [] => piece
      | _ :: _ => piece ++ between ++ interleave between rest
      end
  end.

(** The node types under which an identifier is a Sass variable. *)
Definition sigil_parents : list kind :=
  [KAssignment; KAssignmentPattern; KCallExpression; KLogicalExpression;
   KSassMixin; KSassList; KRestPattern; KSassFunction].

Definition in_sigil_position (parent : value) : Prop :=
  exists k, type_of parent = Some k /\ In k sigil_parents.

Definition ident (ref : nat) (name : string) : value :=
  VObj ref (Identifier (VStr name)).

Definition under_if (parent : value) : Prop :=
  type_of parent = Some KIfStatement.

(** The calls after the consequent: nothing when there is no alternate,
    [@else] and the calls of the alternate when there is one. *)
Inductive else_branch (node alternate : value) : list call -> Prop :=
| no_alternate :
    JS.truthy alternate = false -> else_branch node alternate []
| with_alternate branch :
    JS.truthy alternate = true ->
    print alternate node = Ok branch ->
    else_branch node alternate (PToken (VStr "@else") :: branch).

(** The node is the first element of the [body] array of the parent. *)
Definition first_in_body (parent node : value) : Prop :=
  exists first rest,
    get_body parent = VArr (first :: rest) /\
    JS.same_object first node = true.

(** The [body] of the parent is an array, or there is none to index. *)
Definition body_array_or_absent (parent : value) : Prop :=
  get_body parent = VUndefined \/ get_body parent = VNull \/
  exists l, get_body parent = VArr l.

(** The line feed as a string, and the calls of one comment line. *)
Definition newline_text : string := String JS.LF "".

Definition comment_line (line : string) : list call :=
  [PToken (VStr "// "); PToken (VStr line)].

(** [c] does not occur in [s]. *)
Fixpoint free_of (c : ascii) (s : string) : bool :=
  match s with
  | EmptyString => true
  | String c' rest => negb (Ascii.eqb c' c) && free_of c rest
  end.

(** A run of calls that ends with [;] followed by a newline. *)
Definition newline_after_semicolon (calls : list call) : Prop :=
  exists before, calls = before ++ [PToken (VStr ";"); PNewline].

(** The reading of the spec: [node] closes a run of consecutive assignments
    of [collection], that is, the sibling right after it, if there is one,
    is no assignment.  An assignment that is the only one among its siblings
    closes a run of one. *)
Fixpoint closes_run (collection : list value) (node : value) : bool :=
  match collection with
  | [] => false
  | x :: rest =>
      if JS.same_object x node
      then match rest with
           | [] => true
           | next :: _ => negb (has_type next KAssignment)
           end
      else closes_run rest node
  end.

(** The spacing rule as the spec words it: among more than one sibling, the
    extra newline comes exactly after an assignment that closes a run. *)
Definition spec_run_spacing : Prop :=
  forall r id init default global parent collection calls,
    let node := VObj r (Assignment id init default global) in
    JS.or (get_children parent) (get_body parent) = VArr collection ->
    (exists x, In x collection /\ JS.same_object x node = true) ->
    1 < List.length collection ->
    print node parent = Ok calls ->
    (newline_after_semicolon calls <-> closes_run collection node = true).

(** Three siblings: an assignment, a comment, an assignment. *)
Definition first_assignment : value :=
  VObj 2 (Assignment (ident 3 "a") (VObj 4 (SassNumber (VNum 1)))
            VUndefined VUndefined).

Definition second_assignment : value :=
  VObj 6 (Assignment (ident 7 "b") (VObj 8 (SassNumber (VNum 2)))
            VUndefined VUndefined).

Definition interleaved_siblings : list value :=
  [first_assignment; VObj 5 (Comment (VStr "c")); second_assignment].

Definition interleaved_sheet : value :=
  VObj 1 (StyleSheet (VArr interleaved_siblings)).

(** The rule and the at-rule of the scenarios. *)
Definition box_rule : value :=
  VObj 1 (Rule (VArr [VObj 2 (Declaration (VStr "color") (VStr "red"))])
            (VArr [VStr ".box"])).

Definition empty_media : value :=
  VObj 1 (AtRule (VStr "media") (VStr "(min-width: 0)") (VArr [])).

(** The calls every at-rule starts with. *)
Definition prelude (name media : value) : list call :=
  [PToken (VStr ("@" ++ JS.toString name)); PSpace; PToken media; PSpace].

(** The text a run leaves behind what the printer already held. *)
Definition extend (earlier : string) (p : Printer.state) : Printer.state :=
  Printer.mk (earlier ++ Printer.buffer p)%string
    (Printer.indentLevel p) (Printer.lineStart p) (Printer.pendingSpace p).

(** A small style sheet. *)
Definition small_sheet : value :=
  VObj 10
    (StyleSheet
       (VArr [VObj 11 (Assignment (ident 12 "gap") (VObj 13 (SassNumber (VNum 4)))
                         VUndefined VUndefined);
              VObj 14 (Rule (VArr [VObj 15 (Declaration (VStr "color")
                                              (VStr "red"))])
                         (VArr [VStr ".box"; VStr ".card"]))])).

(** A block whose body is [@content;] and then [@return 1;]. *)
Definition example_block : value :=
  VObj 1 (BlockStatement
            (VArr [VObj 2 AtContent;
                   VObj 3 (AtReturn (VObj 4 (SassNumber (VNum 1))))])).

(** The reading of the spec: whatever its parent, an AtContent emits
    [@content;], with or without the conditional newline in front. *)
Definition spec_at_content_always : Prop :=
  forall r parent,
    print (VObj r AtContent) parent = Ok [PToken (VStr "@content;")] \/
    print (VObj r AtContent) parent =
    Ok [PMaybeNewline; PToken (VStr "@content;")].

(** A mixin whose block holds [@content;]. *)
Definition mixin_with_content : value :=
  VObj 1 (SassMixin (ident 3 "m") VUndefined
            (VObj 4 (BlockStatement (VArr [VObj 2 AtContent])))).

(* ------------------------------------------------------------------------- *)
(** ** Vocabulary of the further properties                                   *)
(* ------------------------------------------------------------------------- *)

(** The values held by the fields of a node. *)
Definition node_fields (n : node) : list value :=
  match n with
  | Comment v | Identifier v | BlockStatement v | SassBoolean v
  | SassColor v | SassList v | SassMap v | SassNumber v | SassString v
  | SassValue v | AtReturn v | RestPattern v | SassImport v | SassModule v
  | SassForward v | StyleSheet v => [v]
  | SassFunctionCall a b | Rule a b | Declaration a b
  | AssignmentPattern a b | CallExpression a b => [a; b]
  | SassFunction a b c | SassMapProperty a b c | SassMixin a b c
  | SassMixinCall a b c | AtRule a b c | IfStatement a b c
  | LogicalExpression a b c => [a; b; c]
  | Assignment a b c d => [a; b; c; d]
  | AtContent | Newline => []
  end.

(** [P] holds of a value and, when the value is an array, of its elements. *)
Definition deep (P : value -> Prop) (v : value) : Prop :=
  P v /\ match v with VArr l => Forall P l | _ => True end.

Definition is_object (v : value) : bool :=
  match v with VObj _ _ => true | _ => false end.

(** The block depth after a run of calls that starts at depth [d]; there is
    none when a [blockEnd] comes with no block open. *)
Fixpoint depth_after (calls : list call) (d : nat) : option nat :=
  match calls with
  | [] => Some d
  | PBlockStart _ :: rest => depth_after rest (S d)
  | PBlockEnd _ :: rest =>
      match d with
      | O => None
      | S d' => depth_after rest d'
      end
  | _ :: rest => depth_after rest d
  end.

(** Every block that is opened is closed, and none is closed before it was
    opened. *)
Definition well_nested (calls : list call) : Prop :=
  forall d, depth_after calls d = Some d.

Definition emits_well_nested (e : Emit) : Prop :=
  forall calls, e = Ok calls -> well_nested calls.

(** Two parents that a routine cannot tell apart: the routines only ask a
    parent whether it is of a type that gives identifiers their sigil,
    whether it is an IfStatement, and for its [children] and its [body]. *)
Definition same_context (p q : value) : Prop :=
  (in_sigil_position p <-> in_sigil_position q) /\
  (under_if p <-> under_if q) /\
  get_children p = get_children q /\
  get_body p = get_body q.

(** The node types whose routine looks at the parent or hands it down. *)
Definition parent_sensitive : list kind :=
  [KIdentifier; KSassFunction; KSassMixin; KRestPattern; KAtContent;
   KAtReturn; KAssignment; KIfStatement].

(** A parameter of a call with the sigil that the loop of the call gives
    to identifiers. *)
Definition with_loop_sigil (param : value) (piece : list call) : list call :=
  if has_type param KIdentifier then PToken (VStr "$") :: piece else piece.

Fixpoint loop_pieces (params : list value) (pieces : list (list call))
  : list (list call) :=
  match params, pieces with
  | param :: params', piece :: pieces' =>
      with_loop_sigil param piece :: loop_pieces params' pieces'
  | _, _ => []
  end.

(** The calls between the value of an assignment and its [;]. *)
Definition flag_calls (default global : value) : list call :=
  match JS.truthy default, JS.truthy global with
  | true, true =>
      [PSpace; PToken (VStr "!default"); PSpace; PToken (VStr "!global")]
  | true, false => [PSpace; PToken (VStr "!default")]
  | false, true => [PToken (VStr "!global")]
  | false, false => []
  end.

(** The number of line feeds of a string. *)
Fixpoint line_feeds (s : string) : nat :=
  match s with
  | EmptyString => 0
  | String c rest =>
      (if Ascii.eqb c JS.LF then 1 else 0) + line_feeds rest
  end.

(** The number of [newline] calls of a run. *)
Fixpoint newlines_in (calls : list call) : nat :=
  match calls with
  | [] => 0
  | PNewline :: rest => S (newlines_in rest)
  | _ :: rest => newlines_in rest
  end.

(** The text that a run of calls leaves in a printer of its own. *)
Definition text_of (calls : list call) : string :=
  Printer.get (Printer.run calls Printer.create).

(* ------------------------------------------------------------------------- *)
(** ** Sequencing and loops                                                   *)
(* ------------------------------------------------------------------------- *)

Lemma seq_ok (xs ys : list call) : Ok xs ;; Ok ys = Ok (xs ++ ys).
Proof. reflexivity. Qed.

Lemma seq_ok_inv (a b : Emit) (calls : list call) :
  a ;; b = Ok calls ->
  exists xs ys, a = Ok xs /\ b = Ok ys /\ calls = xs ++ ys.
Proof.
  destruct a as [xs | e]; [destruct b as [ys | e] |]; simpl; intro H;
    try discriminate.
  injection H as <-. now exists xs, ys.
Qed.

(** Splitting [a ;; b = Ok calls] into the two runs. *)
Ltac peel H :=
  let xs := fresh "xs" in
  let ys := fresh "ys" in
  let Ha := fresh "Ha" in
  apply seq_ok_inv in H as (xs & ys & Ha & H & ->);
  try (injection Ha as <-).

Lemma seq_skip_l (a : Emit) : skip ;; a = a.
Proof. now destruct a. Qed.

Lemma seq_skip_r (a : Emit) : a ;; skip = a.
Proof. destruct a as [xs | e]; simpl; [now rewrite app_nil_r | easy]. Qed.

Lemma seq_assoc (a b c : Emit) : (a ;; b) ;; c = a ;; (b ;; c).
Proof.
  destruct a as [xs | e], b as [ys | e'], c as [zs | e'']; simpl;
    try reflexivity.
  now rewrite app_assoc.
Qed.

Lemma for_each_ok (A : Type) (body : A -> Emit) (between : list call)
  (l : list A) (pieces : list (list call)) :
  Forall2 (fun x piece => body x = Ok piece) l pieces ->
  for_each body (Ok between) l = Ok (interleave between pieces).
Proof.
  induction 1 as [| x piece l pieces Hx Hrest IH]; [reflexivity |].
  simpl. destruct Hrest as [| y piece' l' pieces' Hy Hrest'].
  - exact Hx.
  - rewrite Hx. simpl in IH |- *. rewrite IH. reflexivity.
Qed.

Lemma for_each_ok_inv (A : Type) (body : A -> Emit) (between : Emit)
  (l : list A) (calls : list call) :
  for_each body between l = Ok calls ->
  exists pieces,
    Forall2 (fun x piece => body x = Ok piece) l pieces /\
    (forall sep, between = Ok sep -> calls = interleave sep pieces).
Proof.
  revert calls. induction l as [| x rest IH]; intros calls H.
  - injection H as <-. exists []. split; [constructor | reflexivity].
  - simpl in H. destruct rest as [| y rest'].
    + exists [calls]. split; [repeat constructor; exact H | reflexivity].
    + apply seq_ok_inv in H as (xs & more & Hx & Hmore & ->).
      apply seq_ok_inv in Hmore as (sep & tail & Hsep & Htail & ->).
      destruct (IH _ Htail) as (pieces & Hall & Hcalls).
      exists (xs :: pieces). split; [now constructor |].
      intros sep' Hsep'. rewrite Hsep in Hsep'. injection Hsep' as <-.
      rewrite (Hcalls _ Hsep). inversion Hall; subst. reflexivity.
Qed.

(* ------------------------------------------------------------------------- *)
(** ** The dispatch, one equation per node type                               *)
(* ------------------------------------------------------------------------- *)

Section Dispatch.
Variables (ref : nat) (parent : value).

Lemma print_Identifier name :
  print (VObj ref (Identifier name)) parent = Identifier.generate parent name.
Proof. reflexivity. Qed.

Lemma print_Comment v :
  print (VObj ref (Comment v)) parent = Comment.generate v.
Proof. reflexivity. Qed.

Lemma print_Assignment id init default global :
  print (VObj ref (Assignment id init default global)) parent =
  Assignment.generate print (VObj ref (Assignment id init default global))
    parent id init default global.
Proof. reflexivity. Qed.

Lemma print_SassFunction id params body :
  print (VObj ref (SassFunction id params body)) parent =
  SassFunction.generate print (VObj ref (SassFunction id params body))
    parent id params body.
Proof. reflexivity. Qed.

Lemma print_CallExpression callee arguments :
  print (VObj ref (CallExpression callee arguments)) parent =
  CallExpression.generate print (VObj ref (CallExpression callee arguments))
    callee arguments.
Proof. reflexivity. Qed.

Lemma print_SassFunctionCall id params :
  print (VObj ref (SassFunctionCall id params)) parent =
  SassFunctionCall.generate print (VObj ref (SassFunctionCall id params))
    id params.
Proof. reflexivity. Qed.

Lemma print_SassMixinCall id params body :
  print (VObj ref (SassMixinCall id params body)) parent =
  SassMixinCall.generate print (VObj ref (SassMixinCall id params body))
    id params body.
Proof. reflexivity. Qed.

Lemma print_IfStatement test consequent alternate :
  print (VObj ref (IfStatement test consequent alternate)) parent =
  IfStatement.generate print (VObj ref (IfStatement test consequent alternate))
    parent test consequent alternate.
Proof. reflexivity. Qed.

Lemma print_Rule declarations selectors :
  print (VObj ref (Rule declarations selectors)) parent =
  Rule.generate print (VObj ref (Rule declarations selectors))
    declarations selectors.
Proof. reflexivity. Qed.

Lemma print_Declaration property v :
  print (VObj ref (Declaration property v)) parent =
  Declaration.generate print property v.
Proof. reflexivity. Qed.

Lemma print_AtRule name media children :
  print (VObj ref (AtRule name media children)) parent =
  AtRule.generate print (VObj ref (AtRule name media children))
    name media children.
Proof. reflexivity. Qed.

Lemma print_AtContent :
  print (VObj ref AtContent) parent =
  AtContent.generate (VObj ref AtContent) parent.
Proof. reflexivity. Qed.

Lemma print_AtReturn argument :
  print (VObj ref (AtReturn argument)) parent =
  AtReturn.generate print (VObj ref (AtReturn argument)) parent argument.
Proof. reflexivity. Qed.

End Dispatch.

(* ------------------------------------------------------------------------- *)
(** ** Identifiers and their sigil                                            *)
(* ------------------------------------------------------------------------- *)

Lemma takes_sigil_iff (parent : value) :
  Identifier.takes_sigil parent = true <-> in_sigil_position parent.
Proof.
  unfold in_sigil_position, sigil_parents.
  destruct parent as [| | b | z | s | l | r n];
    try (split; [ unfold Identifier.takes_sigil, has_type; simpl;
                  rewrite ?andb_false_r; discriminate
                | intros (k & Hk & _); discriminate ]).
  destruct n; (split;
    [ intro H;
      first [ discriminate H
            | eexists; split; [ reflexivity | simpl; tauto ] ]
    | intros (k & Hk & Hin); injection Hk as <-; simpl in Hin;
      try reflexivity;
      repeat (destruct Hin as [Hin | Hin]; [discriminate Hin |]);
      contradiction ]).
Qed.

Lemma identifier_with_sigil ref name parent :
  in_sigil_position parent ->
  print (VObj ref (Identifier name)) parent =
  Ok [PToken (VStr "$"); PToken name].
Proof.
  intro H. apply takes_sigil_iff in H.
  rewrite print_Identifier. unfold Identifier.generate. now rewrite H.
Qed.

Lemma identifier_bare ref name parent :
  ~ in_sigil_position parent ->
  print (VObj ref (Identifier name)) parent = Ok [PToken name].
Proof.
  intro H. rewrite print_Identifier. unfold Identifier.generate.
  destruct (Identifier.takes_sigil parent) eqn:E; [| reflexivity].
  apply takes_sigil_iff in E. contradiction.
Qed.

Lemma absent_parent_not_sigil : ~ in_sigil_position VUndefined.
Proof. intros (k & Hk & _). discriminate. Qed.


Lemma Forall2_combine (A B : Type) (R : A -> B -> Prop)
  (l : list A) (l' : list B) :
  Forall2 R l l' -> forall a b, In (a, b) (combine l l') -> R a b.
Proof.
  induction 1 as [| x y xs ys Hxy _ IH]; intros a b Hin; [contradiction |].
  destruct Hin as [Hin | Hin]; [| now apply IH].
  now injection Hin as <- <-.
Qed.

Lemma sigil_under (ref : nat) (n : node) :
  In (kind_of n) sigil_parents -> in_sigil_position (VObj ref n).
Proof. intro H. now exists (kind_of n). Qed.

(** C1.  An identifier is printed with a leading [$] exactly when the parent
    it is printed under is an Assignment, AssignmentPattern, CallExpression,
    LogicalExpression, SassMixin, SassList, RestPattern or SassFunction, and
    bare under any other parent or none.  So the [id] of an Assignment
    renders [$x] and so does every identifier among the [params] of a
    SassFunction, while the [callee] of a CallExpression and the [id] of a
    SassFunctionCall or a SassMixinCall render bare [x]. *)
Theorem identifier_sigil_by_parent :
  (forall ref name parent,
      (in_sigil_position parent ->
       print (VObj ref (Identifier name)) parent =
       Ok [PToken (VStr "$"); PToken name]) /\
      (~ in_sigil_position parent ->
       print (VObj ref (Identifier name)) parent = Ok [PToken name])) /\
  (forall r ri x init d g parent calls,
      print (VObj r (Assignment (ident ri x) init d g)) parent = Ok calls ->
      exists rest,
        calls = PToken (VStr "$") :: PToken (VStr x) :: PToken (VStr ":")
                  :: PSpace :: rest) /\
  (forall r id params body parent calls,
      let node := VObj r (SassFunction id (VArr params) body) in
      print node parent = Ok calls ->
      exists head pieces block,
        print id parent = Ok head /\
        print body parent = Ok block /\
        Forall2 (fun param piece => print param node = Ok piece)
          params pieces /\
        (forall ri x piece,
            In (ident ri x, piece) (combine params pieces) ->
            piece = [PToken (VStr "$"); PToken (VStr x)]) /\
        calls = [PToken (VStr "@function"); PSpace] ++ head ++
                [PToken (VStr "(")] ++
                interleave [PToken (VStr ","); PSpace] pieces ++
                [PToken (VStr ")"); PSpace] ++ block) /\
  (forall r ri x arguments parent calls,
      print (VObj r (CallExpression (ident ri x) arguments)) parent
      = Ok calls ->
      exists rest, calls = PToken (VStr x) :: PToken (VStr "(") :: rest) /\
  (forall r ri x params parent calls,
      print (VObj r (SassFunctionCall (ident ri x) params)) parent
      = Ok calls ->
      exists rest,
        calls = PSpace :: PToken (VStr x) :: PToken (VStr "(") :: rest) /\
  (forall r ri x params body parent calls,
      print (VObj r (SassMixinCall (ident ri x) params body)) parent
      = Ok calls ->
      exists rest,
        calls = PToken (VStr "@include") :: PSpace :: PToken (VStr x)
                  :: PToken (VStr "(") :: rest) /\
  generate
    (VObj 1 (Assignment (ident 2 "x") (VObj 3 (SassNumber (VNum 1)))
               VUndefined VUndefined)) VUndefined = Ok "$x: 1;" /\
  generate
    (VObj 1 (SassFunction (ident 2 "f") (VArr [ident 3 "x"])
               (VObj 4 (BlockStatement
                          (VArr [VObj 5 (AtReturn (VObj 6 (SassNumber (VNum 1))))])))))
    VUndefined
  = Ok ("@function f($x) {" ++ String JS.LF "  @return 1;" ++
        String JS.LF "}")%string /\
  generate (VObj 1 (CallExpression (ident 2 "x") VUndefined)) VUndefined
  = Ok "x()" /\
  generate (VObj 1 (SassFunctionCall (ident 2 "x") VUndefined)) VUndefined
  = Ok " x()" /\
  generate (VObj 1 (SassMixinCall (ident 2 "x") VUndefined VUndefined))
    VUndefined
  = Ok "@include x();".
Proof.
  split; [| split; [| split; [| split; [| split; [| split]]]]].
  - intros ref name parent. split.
    + apply identifier_with_sigil.
    + apply identifier_bare.
  - intros * H. rewrite print_Assignment in H.
    unfold Assignment.generate, ident in H.
    rewrite identifier_with_sigil in H
      by (apply sigil_under; simpl; tauto).
    do 3 peel H. simpl. eauto.
  - intros r id params body parent calls node H. subst node.
    rewrite print_SassFunction in H. unfold SassFunction.generate in H.
    do 2 peel H. peel H. rename xs into head. peel H.
    unfold if_array in H. peel H.
    apply for_each_ok_inv in Ha0 as (pieces & Hall & Hcalls).
    specialize (Hcalls _ eq_refl). subst xs.
    do 2 peel H.
    exists head, pieces, ys. repeat split; try assumption.
    intros ri x piece Hin.
    assert (Hp : print (ident ri x)
                   (VObj r (SassFunction id (VArr params) body)) = Ok piece).
    { exact (Forall2_combine Hall _ _ Hin). }
    unfold ident in Hp. rewrite identifier_with_sigil in Hp
      by (apply sigil_under; simpl; tauto).
    now injection Hp as <-.
  - intros * H. rewrite print_CallExpression in H.
    unfold CallExpression.generate, ident in H.
    rewrite identifier_bare in H by apply absent_parent_not_sigil.
    do 2 peel H. simpl. eauto.
  - intros * H. rewrite print_SassFunctionCall in H.
    unfold SassFunctionCall.generate, ident in H.
    rewrite identifier_bare in H by apply absent_parent_not_sigil.
    do 3 peel H. simpl. eauto.
  - intros * H. rewrite print_SassMixinCall in H.
    unfold SassMixinCall.generate, ident in H.
    rewrite identifier_bare in H by apply absent_parent_not_sigil.
    do 4 peel H. simpl. eauto.
  - repeat split; reflexivity.
Qed.

Lemma identifier_sigil_by_parent_witness :
  print (ident 3 "a") first_assignment =
  Ok [PToken (VStr "$"); PToken (VStr "a")] /\
  print (ident 3 "a") box_rule = Ok [PToken (VStr "a")] /\
  (exists rest,
      [PToken (VStr "$"); PToken (VStr "a"); PToken (VStr ":"); PSpace;
       PToken (VNum 1); PToken (VStr ";")] =
      PToken (VStr "$") :: PToken (VStr "a") :: PToken (VStr ":") :: PSpace
        :: rest) /\
  (exists rest,
      [PToken (VStr "x"); PToken (VStr "("); PToken (VStr "$");
       PToken (VStr "x"); PToken (VStr ")")] =
      PToken (VStr "x") :: PToken (VStr "(") :: rest).
Proof.
  destruct identifier_sigil_by_parent
    as (Hidentifier & Hassignment & _ & Hcallee & _).
  split; [| split; [| split]].
  - apply (proj1 (Hidentifier 3 (VStr "a") first_assignment)).
    exists KAssignment. split; [reflexivity | simpl; tauto].
  - apply (proj2 (Hidentifier 3 (VStr "a") box_rule)).
    intros (k & Hk & Hin). injection Hk as <-. simpl in Hin.
    repeat (destruct Hin as [Hin | Hin]; [discriminate Hin |]).
    contradiction.
  - apply (Hassignment 2 3 "a" (VObj 4 (SassNumber (VNum 1)))
             VUndefined VUndefined VUndefined).
    reflexivity.
  - apply (Hcallee 1 2 "x" (VArr [ident 2 "x"]) VUndefined).
    reflexivity.
Defined.

(* ------------------------------------------------------------------------- *)
(** ** Conditional chains                                                     *)
(* ------------------------------------------------------------------------- *)

Lemma under_if_test (parent : value) :
  JS.truthy parent && has_type parent KIfStatement = true <-> under_if parent.
Proof.
  unfold under_if, has_type.
  destruct parent as [| | b | z | s | l | r n]; simpl;
    rewrite ?andb_false_r; try (split; discriminate).
  destruct n; simpl; split; intro H; try reflexivity; discriminate H.
Qed.

Lemma if_keyword_nested (parent : value) :
  under_if parent ->
  (if JS.truthy parent && has_type parent KIfStatement
   then space ;; str "if" else str "@if")
  = Ok [PSpace; PToken (VStr "if")].
Proof. intro H. apply under_if_test in H. now rewrite H. Qed.

Lemma if_keyword_root (parent : value) :
  ~ under_if parent ->
  (if JS.truthy parent && has_type parent KIfStatement
   then space ;; str "if" else str "@if")
  = Ok [PToken (VStr "@if")].
Proof.
  intro H. destruct (JS.truthy parent && has_type parent KIfStatement) eqn:E;
    [| reflexivity].
  apply under_if_test in E. contradiction.
Qed.

(** C2.  An IfStatement opens with [@if] unless the parent it is printed
    under is itself an IfStatement, in which case it opens with a space and
    a bare [if].  After the test and the consequent, a present alternate is
    announced by [@else] and printed with this IfStatement as its parent; an
    alternate that is an IfStatement therefore continues the chain with
    [@else if] instead of opening a nested conditional. *)
Theorem if_statement_chain :
  (forall r test consequent alternate parent condition block tail,
      let node := VObj r (IfStatement test consequent alternate) in
      print test node = Ok condition ->
      print consequent node = Ok block ->
      else_branch node alternate tail ->
      (~ under_if parent ->
       print node parent =
       Ok (PToken (VStr "@if") :: PSpace :: condition ++ block ++ tail)) /\
      (under_if parent ->
       print node parent =
       Ok (PSpace :: PToken (VStr "if") :: PSpace ::
           condition ++ block ++ tail))) /\
  (forall r n, JS.truthy (VObj r n) = true) /\
  JS.truthy VUndefined = false /\
  (forall r test consequent r' test' consequent' alternate' parent
          condition block condition' block' tail',
      let inner := VObj r' (IfStatement test' consequent' alternate') in
      let node := VObj r (IfStatement test consequent inner) in
      ~ under_if parent ->
      print test node = Ok condition ->
      print consequent node = Ok block ->
      print test' inner = Ok condition' ->
      print consequent' inner = Ok block' ->
      else_branch inner alternate' tail' ->
      print node parent =
      Ok (PToken (VStr "@if") :: PSpace :: condition ++ block ++
          PToken (VStr "@else") :: PSpace :: PToken (VStr "if") :: PSpace ::
          condition' ++ block' ++ tail')).
Proof.
  assert (General :
    forall r test consequent alternate parent condition block tail,
      let node := VObj r (IfStatement test consequent alternate) in
      print test node = Ok condition ->
      print consequent node = Ok block ->
      else_branch node alternate tail ->
      (~ under_if parent ->
       print node parent =
       Ok (PToken (VStr "@if") :: PSpace :: condition ++ block ++ tail)) /\
      (under_if parent ->
       print node parent =
       Ok (PSpace :: PToken (VStr "if") :: PSpace ::
           condition ++ block ++ tail))).
  { intros r test consequent alternate parent condition block tail node
      Htest Hblock Htail.
    assert (Helse :
      (if JS.truthy alternate
       then str "@else" ;; print alternate node else skip) = Ok tail).
    { destruct Htail as [Hno | branch Hyes Hbranch].
      - now rewrite Hno.
      - rewrite Hyes, Hbranch. reflexivity. }
    split; intro Hparent; subst node; rewrite print_IfStatement;
      unfold IfStatement.generate;
      [ rewrite (if_keyword_root Hparent)
      | rewrite (if_keyword_nested Hparent) ];
      rewrite Htest, Hblock, Helse; reflexivity. }
  split; [exact General |].
  split; [reflexivity |]. split; [reflexivity |].
  intros r test consequent r' test' consequent' alternate' parent
    condition block condition' block' tail' inner node
    Hparent Htest Hblock Htest' Hblock' Htail'.
  destruct (General r test consequent inner parent condition block
              (PToken (VStr "@else") :: PSpace :: PToken (VStr "if") ::
               PSpace :: condition' ++ block' ++ tail') Htest Hblock)
    as [Hroot _]; [| exact (Hroot Hparent)].
  apply with_alternate; [reflexivity |].
  destruct (General r' test' consequent' alternate' node condition' block'
              tail' Htest' Hblock' Htail') as [_ Hnested].
  apply Hnested. reflexivity.
Qed.

Lemma if_statement_chain_witness :
  print
    (VObj 1 (IfStatement (ident 2 "a")
               (VObj 3 (BlockStatement (VArr [VObj 4 AtContent])))
               VUndefined))
    VUndefined =
  Ok (PToken (VStr "@if") :: PSpace ::
      [PToken (VStr "a")] ++
      [PBlockStart None; PToken (VStr "@content;"); PBlockEnd None] ++ []).
Proof.
  refine (proj1 (proj1 if_statement_chain 1 (ident 2 "a")
                   (VObj 3 (BlockStatement (VArr [VObj 4 AtContent])))
                   VUndefined VUndefined _ _ _ eq_refl eq_refl _) _).
  - apply no_alternate. reflexivity.
  - discriminate.
Defined.

(* ------------------------------------------------------------------------- *)
(** ** Call expressions                                                       *)
(* ------------------------------------------------------------------------- *)

Lemma ident_with_sigil ref x parent :
  in_sigil_position parent ->
  print (ident ref x) parent = Ok [PToken (VStr "$"); PToken (VStr x)].
Proof. apply identifier_with_sigil. Qed.

Lemma ident_bare ref x parent :
  ~ in_sigil_position parent ->
  print (ident ref x) parent = Ok [PToken (VStr x)].
Proof. apply identifier_bare. Qed.

Lemma comma_calls : comma = Ok [PToken (VStr ","); PSpace].
Proof. reflexivity. Qed.

Lemma print_identifiers_under (node : value) (names : list (nat * string)) :
  in_sigil_position node ->
  Forall2 (fun argument piece => print argument node = Ok piece)
    (map (fun '(ri, x) => ident ri x) names)
    (map (fun '(_, x) => [PToken (VStr "$"); PToken (VStr x)]) names).
Proof.
  intro Hnode. induction names as [| [ri x] rest IH]; constructor.
  - now apply identifier_with_sigil.
  - exact IH.
Qed.

(** C9.  A CallExpression prints its callee with no parent, so an identifier
    callee is bare, and prints every argument with the CallExpression itself
    as parent, so an identifier argument carries the [$]: one and the same
    identifier renders [x] as the callee and [$x] among the arguments. *)
Theorem call_expression_callee_and_arguments :
  (forall r rc f arguments parent pieces,
      let node := VObj r (CallExpression (ident rc f) (VArr arguments)) in
      Forall2 (fun argument piece => print argument node = Ok piece)
        arguments pieces ->
      print node parent =
      Ok ([PToken (VStr f); PToken (VStr "(")] ++
          interleave [PToken (VStr ","); PSpace] pieces ++
          [PToken (VStr ")")]) /\
      (forall ri x piece,
          In (ident ri x, piece) (combine arguments pieces) ->
          piece = [PToken (VStr "$"); PToken (VStr x)])) /\
  (forall r rc f names parent,
      print (VObj r (CallExpression (ident rc f)
                       (VArr (map (fun '(ri, x) => ident ri x) names))))
        parent =
      Ok ([PToken (VStr f); PToken (VStr "(")] ++
          interleave [PToken (VStr ","); PSpace]
            (map (fun '(_, x) => [PToken (VStr "$"); PToken (VStr x)])
               names) ++
          [PToken (VStr ")")])) /\
  (forall r rc f parent,
      print (VObj r (CallExpression (ident rc f) VUndefined)) parent =
      Ok [PToken (VStr f); PToken (VStr "("); PToken (VStr ")")]) /\
  (forall parent,
      generate (VObj 1 (CallExpression (ident 2 "x") (VArr [ident 2 "x"])))
        parent = Ok "x($x)").
Proof.
  assert (General :
    forall r rc f arguments parent pieces,
      let node := VObj r (CallExpression (ident rc f) (VArr arguments)) in
      Forall2 (fun argument piece => print argument node = Ok piece)
        arguments pieces ->
      print node parent =
      Ok ([PToken (VStr f); PToken (VStr "(")] ++
          interleave [PToken (VStr ","); PSpace] pieces ++
          [PToken (VStr ")")])).
  { intros r rc f arguments parent pieces node Hall. subst node.
    rewrite print_CallExpression. unfold CallExpression.generate.
    rewrite ident_bare by apply absent_parent_not_sigil.
    unfold if_array. rewrite comma_calls.
    rewrite (for_each_ok _ [PToken (VStr ","); PSpace] Hall).
    reflexivity. }
  split; [| split; [| split]].
  - intros r rc f arguments parent pieces node Hall. split.
    + now apply General.
    + intros ri x piece Hin.
      pose proof (Forall2_combine Hall _ _ Hin) as Hp.
      unfold ident in Hp. rewrite identifier_with_sigil in Hp
        by (apply sigil_under; simpl; tauto).
      now injection Hp as <-.
  - intros r rc f names parent. apply General.
    apply print_identifiers_under. apply sigil_under. simpl. tauto.
  - reflexivity.
  - reflexivity.
Qed.

Lemma call_expression_callee_and_arguments_witness :
  print (VObj 1 (CallExpression (ident 2 "x") (VArr [ident 2 "x"])))
    VUndefined =
  Ok ([PToken (VStr "x"); PToken (VStr "(")] ++
      interleave [PToken (VStr ","); PSpace]
        [[PToken (VStr "$"); PToken (VStr "x")]] ++
      [PToken (VStr ")")]).
Proof.
  refine (proj1 (proj1 call_expression_callee_and_arguments 1 2 "x"
                   [ident 2 "x"] VUndefined _ _)).
  repeat constructor.
Defined.

(* ------------------------------------------------------------------------- *)
(** ** [@content] and [@return]                                               *)
(* ------------------------------------------------------------------------- *)

Lemma indexOf_zero (l : list value) (node : value) :
  JS.indexOf l node = 0%Z <->
  exists first rest, l = first :: rest /\ JS.same_object first node = true.
Proof.
  destruct l as [| y rest]; simpl.
  - split; [discriminate | intros (f & t & H & _); discriminate].
  - destruct (JS.same_object y node) eqn:E.
    + split; [now exists y, rest | reflexivity].
    + split.
      * destruct (JS.indexOf rest node =? -1)%Z eqn:E1; [discriminate |].
        apply Z.eqb_neq in E1. lia.
      * intros (f & t & H & Hf). injection H as <- <-. congruence.
Qed.

Lemma not_first_in_body_spec (parent node : value) :
  body_array_or_absent parent ->
  (first_in_body parent node -> not_first_in_body parent node = Ok false) /\
  (~ first_in_body parent node -> not_first_in_body parent node = Ok true).
Proof.
  unfold body_array_or_absent, first_in_body, not_first_in_body.
  intros Hbody. destruct (JS.nullish parent) eqn:Enull.
  - assert (Hnone : get_body parent = VUndefined)
      by (destruct parent; try discriminate; reflexivity).
    split; [| reflexivity].
    intros (f & t & H & _). congruence.
  - destruct Hbody as [-> | [-> | [l Hl]]].
    + split; [intros (f & t & H & _); discriminate | reflexivity].
    + split; [intros (f & t & H & _); discriminate | reflexivity].
    + rewrite Hl. split.
      * intros (f & t & H & Hf). injection H as ->.
        simpl. now rewrite Hf.
      * intro Hnot. destruct (JS.indexOf l node =? 0)%Z eqn:E; [| reflexivity].
        apply Z.eqb_eq, indexOf_zero in E as (f & t & -> & Hf).
        exfalso. apply Hnot. now exists f, t.
Qed.

(** C10, as the code has it.  Under a parent that is absent, that has no
    [body], or whose [body] is an array, the routine asks the printer for a
    conditional newline before [@content;] and before [@return ...;] exactly
    when the node is not the first element of that [body] array; the
    conditional newline ends the line only when the cursor is not at the
    start of one.  An AtContent then
    emits the single token [@content;]; an AtReturn emits [@return], a
    space, its argument printed under the AtReturn, and [;]. *)
Theorem at_content_and_at_return :
  (forall r parent,
      let node := VObj r AtContent in
      body_array_or_absent parent ->
      (first_in_body parent node ->
       print node parent = Ok [PToken (VStr "@content;")]) /\
      (~ first_in_body parent node ->
       print node parent = Ok [PMaybeNewline; PToken (VStr "@content;")])) /\
  (forall r argument parent value_calls,
      let node := VObj r (AtReturn argument) in
      body_array_or_absent parent ->
      print argument node = Ok value_calls ->
      (first_in_body parent node ->
       print node parent =
       Ok ([PToken (VStr "@return"); PSpace] ++ value_calls ++
           [PToken (VStr ";")])) /\
      (~ first_in_body parent node ->
       print node parent =
       Ok ([PMaybeNewline; PToken (VStr "@return"); PSpace] ++ value_calls ++
           [PToken (VStr ";")]))) /\
  (forall node, ~ first_in_body VUndefined node) /\
  (forall parent node, get_body parent = VUndefined ->
                       ~ first_in_body parent node) /\
  (forall p,
      (Printer.lineStart p = true ->
       Printer.run [PMaybeNewline] p = p) /\
      (Printer.lineStart p = false ->
       Printer.run [PMaybeNewline] p = Printer.run [PNewline] p)).
Proof.
  split; [| split; [| split; [| split]]].
  - intros r parent node Hbody.
    destruct (not_first_in_body_spec node Hbody) as [Hfirst Hother].
    split; intro H; subst node; rewrite print_AtContent;
      unfold AtContent.generate;
      [rewrite (Hfirst H) | rewrite (Hother H)]; reflexivity.
  - intros r argument parent value_calls node Hbody Hvalue.
    destruct (not_first_in_body_spec node Hbody) as [Hfirst Hother].
    split; intro H; subst node; rewrite print_AtReturn;
      unfold AtReturn.generate;
      [rewrite (Hfirst H) | rewrite (Hother H)]; rewrite Hvalue;
      reflexivity.
  - intros node (f & t & H & _). discriminate.
  - intros parent node Hnone (f & t & H & _). congruence.
  - intro p. unfold Printer.run, Printer.perform, Printer.maybeNewline.
    simpl. split; intros ->; reflexivity.
Qed.

Lemma at_content_and_at_return_witness :
  print (VObj 2 AtContent) example_block = Ok [PToken (VStr "@content;")] /\
  print (VObj 3 (AtReturn (VObj 4 (SassNumber (VNum 1))))) example_block =
  Ok ([PMaybeNewline; PToken (VStr "@return"); PSpace] ++ [PToken (VNum 1)] ++
      [PToken (VStr ";")]) /\
  print (VObj 2 AtContent) VUndefined =
  Ok [PMaybeNewline; PToken (VStr "@content;")].
Proof.
  pose proof at_content_and_at_return as (Hcontent & Hreturn & Habsent & _).
  split; [| split].
  - apply (Hcontent 2 example_block).
    + right. right. eexists. reflexivity.
    + eexists _, _. split; reflexivity.
  - apply (Hreturn 3 (VObj 4 (SassNumber (VNum 1))) example_block
             [PToken (VNum 1)]).
    + right. right. eexists. reflexivity.
    + reflexivity.
    + intros (f & t & H & Hf). injection H as <- _. discriminate.
  - apply (Hcontent 2 VUndefined).
    + left. reflexivity.
    + apply Habsent.
Defined.

(** The mixin by evaluation: its [body] is a block, not an array, and the
    routine fails when it looks for the node in it. *)
Example at_content_under_mixin_by_evaluation :
  get_body mixin_with_content =
  VObj 4 (BlockStatement (VArr [VObj 2 AtContent])) /\
  print (VObj 2 AtContent) mixin_with_content = Err TypeError /\
  print (VObj 5 (AtReturn (VObj 6 (SassNumber (VNum 1))))) mixin_with_content
  = Err TypeError.
Proof. repeat split. Qed.

(** C10, as the spec has it, fails under a parent whose [body] is no array:
    an AtContent printed under a SassMixin, whose [body] is a
    BlockStatement, emits nothing, because the run ends with a TypeError. *)
Lemma at_content_counterexample : ~ spec_at_content_always.
Proof.
  intro Hspec.
  destruct (Hspec 2 mixin_with_content) as [H | H]; discriminate H.
Qed.

(* ------------------------------------------------------------------------- *)
(** ** Strings, lines and the text printer                                    *)
(* ------------------------------------------------------------------------- *)

Lemma append_assoc (a b c : string) :
  ((a ++ b) ++ c = a ++ (b ++ c))%string.
Proof. induction a as [| x a IH]; simpl; [reflexivity | now rewrite IH]. Qed.

Lemma append_empty_r (a : string) : (a ++ "")%string = a.
Proof. induction a as [| x a IH]; simpl; [reflexivity | now rewrite IH]. Qed.

Lemma split_lines_not_nil (s : string) : JS.split_lines s <> [].
Proof.
  destruct s as [| c rest]; simpl; [discriminate |].
  destruct (Ascii.eqb c JS.LF); [discriminate |].
  destruct (JS.split_lines rest); discriminate.
Qed.

(** Joining the pieces with line feeds gives the string back. *)
Lemma split_lines_concat (s : string) :
  String.concat newline_text (JS.split_lines s) = s.
Proof.
  induction s as [| c rest IH]; [reflexivity |].
  simpl. destruct (Ascii.eqb c JS.LF) eqn:E.
  - apply Ascii.eqb_eq in E. subst c.
    pose proof (split_lines_not_nil rest) as Hne.
    destruct (JS.split_lines rest) as [| p ps]; [contradiction |].
    simpl in IH |- *. now rewrite IH.
  - pose proof (split_lines_not_nil rest) as Hne.
    destruct (JS.split_lines rest) as [| p ps]; [contradiction |].
    destruct ps as [| q qs]; simpl in IH |- *; now rewrite IH.
Qed.

(** No piece contains a line feed. *)
Lemma split_lines_free (s : string) :
  Forall (fun piece => free_of JS.LF piece = true) (JS.split_lines s).
Proof.
  induction s as [| c rest IH]; simpl; [repeat constructor |].
  destruct (Ascii.eqb c JS.LF) eqn:E.
  - constructor; [reflexivity | exact IH].
  - destruct (JS.split_lines rest) as [| p ps]; [repeat constructor; simpl;
      now rewrite E |].
    inversion IH as [| ? ? Hp Hps]; subst.
    constructor; [simpl; now rewrite E, Hp | exact Hps].
Qed.

Lemma run_app (xs ys : list call) (p : Printer.state) :
  Printer.run (xs ++ ys) p = Printer.run ys (Printer.run xs p).
Proof. apply fold_left_app. Qed.

Lemma write_at_depth0 (text b : string) (at_start : bool) :
  Printer.write text (Printer.mk b 0 at_start false) =
  Printer.mk (b ++ text)%string 0 false false.
Proof. now destruct at_start. Qed.

Lemma run_comment_line (line b : string) (at_start : bool) :
  Printer.run (comment_line line) (Printer.mk b 0 at_start false) =
  Printer.mk (b ++ "// " ++ line)%string 0 false false.
Proof.
  unfold comment_line, Printer.run. simpl. unfold Printer.token. simpl.
  rewrite !write_at_depth0, append_assoc. reflexivity.
Qed.

(** The text of a run of comment lines, from the start of a line at depth 0. *)
Lemma run_comment_lines (lines : list string) (b : string) :
  lines <> [] ->
  Printer.run (interleave [PNewline] (map comment_line lines))
    (Printer.mk b 0 true false) =
  Printer.mk
    (b ++ String.concat newline_text
            (map (fun line => "// " ++ line)%string lines))%string
    0 false false.
Proof.
  intros Hne. revert b.
  induction lines as [| line rest IH]; [contradiction |]. intro b.
  destruct rest as [| next rest'].
  - apply run_comment_line.
  - change (interleave [PNewline] (map comment_line (line :: next :: rest')))
      with (comment_line line ++ [PNewline] ++
            interleave [PNewline] (map comment_line (next :: rest'))).
    rewrite !run_app, run_comment_line.
    change (Printer.run [PNewline]
              (Printer.mk (b ++ "// " ++ line)%string 0 false false))
      with (Printer.mk ((b ++ "// " ++ line) ++ newline_text)%string 0 true
              false).
    rewrite IH by discriminate.
    f_equal.
    change (map (fun l => "// " ++ l)%string (line :: next :: rest'))
      with (("// " ++ line)%string ::
            map (fun l => "// " ++ l)%string (next :: rest')).
    remember (map (fun l => "// " ++ l)%string (next :: rest')) as tail eqn:Et.
    destruct tail as [| t ts]; [discriminate |].
    change (String.concat newline_text (("// " ++ line)%string :: t :: ts))
      with (("// " ++ line) ++ newline_text ++
            String.concat newline_text (t :: ts))%string.
    rewrite !append_assoc. reflexivity.
Qed.

Lemma Forall2_map (A B : Type) (R : A -> B -> Prop) (f : A -> B)
  (l : list A) :
  (forall x, R x (f x)) -> Forall2 R l (map f l).
Proof. intro H. induction l; constructor; auto. Qed.

(* ------------------------------------------------------------------------- *)
(** ** Comments                                                               *)
(* ------------------------------------------------------------------------- *)

(** C6.  A comment whose value is the empty string, [undefined] or [null]
    makes no call on the printer, so it leaves no text at all.  A comment
    whose value is a non-empty string emits, for every piece of the value
    between line feeds, the token [// ] and the piece, with a newline after
    every piece but the last: its text is the pieces, each behind [// ],
    one per line. *)
Theorem comment_emission :
  (forall r parent v,
      v = VStr "" \/ v = VUndefined \/ v = VNull ->
      print (VObj r (Comment v)) parent = Ok [] /\
      generate (VObj r (Comment v)) parent = Ok "") /\
  (forall r parent s,
      s <> "" ->
      print (VObj r (Comment (VStr s))) parent =
      Ok (interleave [PNewline] (map comment_line (JS.split_lines s))) /\
      generate (VObj r (Comment (VStr s))) parent =
      Ok (String.concat newline_text
            (map (fun line => "// " ++ line)%string (JS.split_lines s)))) /\
  (forall s,
      String.concat newline_text (JS.split_lines s) = s /\
      Forall (fun piece => free_of JS.LF piece = true) (JS.split_lines s)).
Proof.
  split; [| split].
  - intros r parent v [-> | [-> | ->]]; split; reflexivity.
  - intros r parent s Hs.
    assert (Hcalls :
      print (VObj r (Comment (VStr s))) parent =
      Ok (interleave [PNewline] (map comment_line (JS.split_lines s)))).
    { rewrite print_Comment. unfold Comment.generate.
      apply String.eqb_neq in Hs. rewrite Hs.
      apply (for_each_ok _ [PNewline]).
      apply Forall2_map. reflexivity. }
    split; [exact Hcalls |].
    unfold generate, generate_from. rewrite Hcalls.
    unfold Printer.create.
    rewrite run_comment_lines by apply split_lines_not_nil.
    reflexivity.
  - intro s. split; [apply split_lines_concat | apply split_lines_free].
Qed.

Lemma comment_emission_witness :
  generate (VObj 1 (Comment VNull)) VUndefined = Ok "" /\
  generate (VObj 1 (Comment (VStr ("a" ++ newline_text ++ "b")))) VUndefined
  = Ok ("// a" ++ newline_text ++ "// b")%string.
Proof.
  pose proof comment_emission as (Hempty & Hlines & _).
  split.
  - apply (Hempty 1 VUndefined VNull). right. right. reflexivity.
  - apply (Hlines 1 VUndefined ("a" ++ newline_text ++ "b")%string).
    discriminate.
Defined.

(* ------------------------------------------------------------------------- *)
(** ** Assignments and the newline after a group                              *)
(* ------------------------------------------------------------------------- *)

Lemma assignments_of_filter (collection : list value) :
  Forall (fun v => JS.nullish v = false) collection ->
  Assignment.assignments_of collection =
  Ok (filter (fun v => has_type v KAssignment) collection).
Proof.
  induction 1 as [| x rest Hx _ IH]; [reflexivity |].
  simpl. rewrite Hx, IH. reflexivity.
Qed.

Lemma indexOf_first (before after : list value) (x node : value) :
  (forall y, In y before -> JS.same_object y node = false) ->
  JS.same_object x node = true ->
  JS.indexOf (before ++ x :: after) node = Z.of_nat (List.length before).
Proof.
  intros Hbefore Hx. induction before as [| y before IH]; simpl.
  - now rewrite Hx.
  - rewrite (Hbefore y) by now left.
    rewrite IH by (intros z Hz; apply Hbefore; now right).
    destruct (Z.of_nat (List.length before) =? -1)%Z eqn:E.
    + apply Z.eqb_eq in E. lia.
    + lia.
Qed.

Lemma filter_empty_iff (A : Type) (keep : A -> bool) (l : list A) :
  List.length (filter keep l) = 0 <-> forall y, In y l -> keep y = false.
Proof.
  induction l as [| x l IH]; simpl.
  - split; [intros _ y [] | reflexivity].
  - destruct (keep x) eqn:E; simpl.
    + split; [discriminate |]. intro H. specialize (H x (or_introl eq_refl)).
      congruence.
    + rewrite IH. split.
      * intros H y [<- | Hy]; auto.
      * intros H y Hy. apply H. now right.
Qed.

(** The routine is the statement followed by the separator. *)
Lemma assignment_then_separator r id init default global parent :
  let node := VObj r (Assignment id init default global) in
  print node parent =
  print node VUndefined ;;
  (if JS.truthy parent then Assignment.separator node parent else skip).
Proof.
  intro node. subst node. rewrite !print_Assignment.
  unfold Assignment.generate.
  change (JS.truthy VUndefined) with false. cbv iota.
  rewrite (seq_skip_r (str ";")).
  rewrite !seq_assoc. reflexivity.
Qed.

(** The separator of a node that occurs in the collection of its parent. *)
Lemma separator_of_member (node parent : value) (before after : list value)
  (x : value) :
  JS.or (get_children parent) (get_body parent) = VArr (before ++ x :: after) ->
  Forall (fun v => JS.nullish v = false) (before ++ x :: after) ->
  JS.same_object x node = true ->
  has_type x KAssignment = true ->
  (forall y, In y before -> has_type y KAssignment = true ->
             JS.same_object y node = false) ->
  let last_one :=
    1 < List.length (before ++ x :: after) /\
    (forall y, In y after -> has_type y KAssignment = false) in
  (last_one -> Assignment.separator node parent = Ok [PNewline]) /\
  (~ last_one -> Assignment.separator node parent = Ok []).
Proof.
  intros Hcoll Hall Hx Htype Hbefore last_one. subst last_one.
  unfold Assignment.separator. rewrite Hcoll.
  change (JS.truthy (VArr (before ++ x :: after))) with true.
  unfold length_gt. cbv beta iota. rewrite andb_true_l.
  destruct (Nat.ltb_spec 1 (List.length (before ++ x :: after))) as [Hlen | Hlen].
  2:{ split; [intros [H _]; lia | reflexivity]. }
  rewrite (assignments_of_filter Hall).
  rewrite filter_app. simpl. rewrite Htype.
  set (keep := fun v => has_type v KAssignment).
  rewrite (@indexOf_first (filter keep before) (filter keep after) x node);
    [| | exact Hx].
  2:{ intros y Hy. apply filter_In in Hy as [Hin Hk]. now apply Hbefore. }
  rewrite (length_app (filter keep before) (x :: filter keep after)).
  change (List.length (x :: filter keep after))
    with (S (List.length (filter keep after))).
  pose proof (filter_empty_iff keep after) as Hempty.
  remember (List.length (filter keep before)) as m eqn:Em.
  remember (List.length (filter keep after)) as k eqn:Ek.
  clear Em Ek.
  destruct k as [| k'].
  - replace ((Z.of_nat (m + 1) =? 1) ||
             (Z.of_nat m =? Z.of_nat (m + 1) - 1))%Z with true
      by (symmetry; apply orb_true_iff; right; apply Z.eqb_eq; lia).
    split; [reflexivity |]. intro H. exfalso. apply H.
    split; [exact Hlen | now apply Hempty].
  - replace ((Z.of_nat (m + S (S k')) =? 1) ||
             (Z.of_nat m =? Z.of_nat (m + S (S k')) - 1))%Z with false
      by (symmetry; apply orb_false_iff; split; apply Z.eqb_neq; lia).
    split; [| reflexivity].
    intros [_ H]. apply Hempty in H. discriminate.
Qed.

(** C8, as the code has it.  Take an assignment printed under a parent whose
    collection ([children], or else [body]) holds it, [x] being its first
    occurrence there.  The statement itself ends with [;].  A newline is
    emitted after that [;] exactly when the collection has more than one
    element and no assignment comes anywhere after the node among its
    siblings, that is, when the node is the last assignment of the whole
    collection (in particular when it is the only one).  With a single
    sibling nothing follows the [;]. *)
Theorem assignment_group_spacing :
  forall r id init default global parent before x after statement,
    let node := VObj r (Assignment id init default global) in
    let collection := before ++ x :: after in
    JS.or (get_children parent) (get_body parent) = VArr collection ->
    Forall (fun v => JS.nullish v = false) collection ->
    JS.same_object x node = true ->
    has_type x KAssignment = true ->
    (forall y, In y before -> has_type y KAssignment = true ->
               JS.same_object y node = false) ->
    print node VUndefined = Ok statement ->
    (exists calls, statement = calls ++ [PToken (VStr ";")]) /\
    (1 < List.length collection /\
     (forall y, In y after -> has_type y KAssignment = false) ->
     print node parent = Ok (statement ++ [PNewline])) /\
    (~ (1 < List.length collection /\
        (forall y, In y after -> has_type y KAssignment = false)) ->
     print node parent = Ok statement) /\
    (List.length collection = 1 -> print node parent = Ok statement).
Proof.
  intros r id init default global parent before x after statement
    node collection Hcoll Hall Hx Htype Hbefore Hstatement.
  assert (Hparent : JS.truthy parent = true).
  { destruct parent as [| | b | z | s | l | rp np]; try discriminate Hcoll.
    reflexivity. }
  pose proof (assignment_then_separator r id init default global parent)
    as Hsplit. cbv zeta in Hsplit. fold node in Hsplit.
  rewrite Hstatement, Hparent in Hsplit.
  destruct (@separator_of_member node parent before after x
              Hcoll Hall Hx Htype Hbefore) as [Hlast Hother].
  assert (Hno : ~ (1 < List.length collection /\
                   (forall y, In y after -> has_type y KAssignment = false)) ->
                print node parent = Ok statement).
  { intro H. rewrite Hsplit, (Hother H). simpl. now rewrite app_nil_r. }
  split; [| split; [| split]].
  - subst node. rewrite print_Assignment in Hstatement.
    unfold Assignment.generate in Hstatement.
    do 7 peel Hstatement. injection Hstatement as <-.
    eexists. rewrite app_nil_r, !app_assoc. reflexivity.
  - intro H. rewrite Hsplit, (Hlast H). reflexivity.
  - exact Hno.
  - intro Hone. apply Hno. intros [H _]. lia.
Qed.

Lemma assignment_group_spacing_witness :
  print second_assignment interleaved_sheet =
  Ok ([PToken (VStr "$"); PToken (VStr "b"); PToken (VStr ":"); PSpace;
       PToken (VNum 2); PToken (VStr ";")] ++ [PNewline]) /\
  print first_assignment interleaved_sheet =
  Ok [PToken (VStr "$"); PToken (VStr "a"); PToken (VStr ":"); PSpace;
      PToken (VNum 1); PToken (VStr ";")].
Proof.
  split.
  - refine (proj1 (proj2
      (@assignment_group_spacing 6 (ident 7 "b") (VObj 8 (SassNumber (VNum 2)))
         VUndefined VUndefined interleaved_sheet
         [first_assignment; VObj 5 (Comment (VStr "c"))] second_assignment []
         _ eq_refl _ eq_refl eq_refl _ eq_refl)) _).
    + repeat constructor.
    + intros y [<- | [<- | []]] H; [reflexivity | discriminate H].
    + split; [simpl; lia | intros y []].
  - refine (proj1 (proj2 (proj2
      (@assignment_group_spacing 2 (ident 3 "a") (VObj 4 (SassNumber (VNum 1)))
         VUndefined VUndefined interleaved_sheet
         [] first_assignment [VObj 5 (Comment (VStr "c")); second_assignment]
         _ eq_refl _ eq_refl eq_refl _ eq_refl))) _).
    + repeat constructor.
    + intros y [].
    + intros [_ H]. specialize (H second_assignment (or_intror (or_introl eq_refl))).
      discriminate H.
Defined.

(** The three siblings by evaluation: the first assignment closes its run,
    nothing follows its [;], and the blank line of the sheet comes only after
    the second. *)
Example interleaved_siblings_by_evaluation :
  closes_run interleaved_siblings first_assignment = true /\
  print first_assignment interleaved_sheet =
  Ok [PToken (VStr "$"); PToken (VStr "a"); PToken (VStr ":"); PSpace;
      PToken (VNum 1); PToken (VStr ";")] /\
  generate interleaved_sheet VUndefined =
  Ok ("$a: 1;" ++ newline_text ++ "// c" ++ newline_text ++ "$b: 2;" ++
      newline_text)%string.
Proof. repeat split. Qed.

(** C8, as the spec has it, fails on an assignment that closes a run but is
    not the last assignment of the collection: in [$a: 1;], a comment,
    [$b: 2;] the first assignment closes a run of one, and no newline
    follows its [;]. *)
Lemma assignment_run_counterexample : ~ spec_run_spacing.
Proof.
  intro Hspec.
  destruct (Hspec 2 (ident 3 "a") (VObj 4 (SassNumber (VNum 1)))
              VUndefined VUndefined interleaved_sheet interleaved_siblings
              [PToken (VStr "$"); PToken (VStr "a"); PToken (VStr ":");
               PSpace; PToken (VNum 1); PToken (VStr ";")]
              eq_refl) as [_ Hnewline].
  - exists first_assignment. split; [now left | reflexivity].
  - simpl. lia.
  - reflexivity.
  - destruct (Hnewline eq_refl) as (before & Hcalls).
    change [PToken (VStr "$"); PToken (VStr "a"); PToken (VStr ":");
            PSpace; PToken (VNum 1); PToken (VStr ";")]
      with ([PToken (VStr "$"); PToken (VStr "a"); PToken (VStr ":");
             PSpace; PToken (VNum 1)] ++ [PToken (VStr ";")]) in Hcalls.
    change (before ++ [PToken (VStr ";"); PNewline])
      with (before ++ [PToken (VStr ";")] ++ [PNewline]) in Hcalls.
    rewrite app_assoc in Hcalls.
    apply app_inj_tail in Hcalls as [_ Hlast]. discriminate Hlast.
Qed.

(* ------------------------------------------------------------------------- *)
(** ** Rules, declarations and at-rules                                       *)
(* ------------------------------------------------------------------------- *)

Lemma join_strings (sep : string) (texts : list string) :
  JS.join sep (map VStr texts) = String.concat sep texts.
Proof.
  unfold JS.join. rewrite map_map. simpl.
  now rewrite map_id.
Qed.

(** C5.  The rule [.box] with the declaration [color: red] renders as
    [.box {], the declaration indented on a line of its own, and [}].  In
    general a rule emits its selectors joined by a comma and a space, a
    space, and a block that holds the declarations with a newline between
    two of them and none after the last; a declaration ends with its [;],
    and a block indents by one level and dedents when it closes. *)
Theorem rule_rendering :
  generate box_rule VUndefined =
  Ok (".box {" ++ newline_text ++ "  color: red;" ++ newline_text ++ "}")%string
  /\
  (forall r declarations selectors parent pieces,
      let node := VObj r (Rule (VArr declarations) (VArr selectors)) in
      Forall2 (fun declaration piece => print declaration node = Ok piece)
        declarations pieces ->
      print node parent =
      Ok ([PToken (VStr (JS.join ", " selectors)); PSpace; PBlockStart None]
          ++ interleave [PNewline] pieces ++ [PBlockEnd None])) /\
  (forall texts,
      JS.join ", " (map VStr texts) = String.concat ", " texts) /\
  (forall r property text parent,
      print (VObj r (Declaration property (VStr text))) parent =
      Ok [PToken property; PToken (VStr ":"); PSpace; PToken (VStr text);
          PToken (VStr ";")]) /\
  (forall r property v parent calls,
      print (VObj r (Declaration property v)) parent = Ok calls ->
      exists before, calls = before ++ [PToken (VStr ";")]) /\
  (forall p,
      Printer.indentLevel (Printer.blockStart None p) =
      S (Printer.indentLevel p) /\
      Printer.lineStart (Printer.blockStart None p) = true /\
      Printer.indentLevel (Printer.blockEnd None (Printer.blockStart None p))
      = Printer.indentLevel p).
Proof.
  split; [reflexivity |]. split; [| split; [| split; [| split]]].
  - intros r declarations selectors parent pieces node Hall. subst node.
    rewrite print_Rule. unfold Rule.generate, Rule.selectors_text.
    unfold for_each_in.
    change newline with (Ok [PNewline]).
    rewrite (for_each_ok _ [PNewline] Hall). reflexivity.
  - intro texts. apply join_strings.
  - reflexivity.
  - intros r property v parent calls H.
    rewrite print_Declaration in H. unfold Declaration.generate in H.
    do 4 peel H. injection H as <-.
    eexists. rewrite !app_assoc. reflexivity.
  - intros [b d at_start pending]. destruct at_start; repeat split.
Qed.

Lemma rule_rendering_witness :
  print box_rule VUndefined =
  Ok ([PToken (VStr (JS.join ", " [VStr ".box"])); PSpace; PBlockStart None]
      ++ interleave [PNewline]
           [[PToken (VStr "color"); PToken (VStr ":"); PSpace;
             PToken (VStr "red"); PToken (VStr ";")]]
      ++ [PBlockEnd None]).
Proof.
  refine (proj1 (proj2 rule_rendering) 1
            [VObj 2 (Declaration (VStr "color") (VStr "red"))]
            [VStr ".box"] VUndefined _ _).
  repeat constructor.
Defined.

(** C7.  An at-rule emits [@] and its name, a space, the media text and a
    space, and opens a block, which holds the children with a newline
    between two of them and none after the last, only when there is at
    least one child.  With no children it emits the prelude and no block:
    its text is [@], the name, a space and the media text, so the at-rule
    [media] over [(min-width: 0)] renders exactly [@media (min-width: 0)]. *)
Theorem at_rule_block_only_with_children :
  (forall r name media parent,
      print (VObj r (AtRule (VStr name) media (VArr []))) parent =
      Ok [PToken (VStr ("@" ++ name)); PSpace; PToken media; PSpace]) /\
  (forall r name media child children parent pieces,
      let node :=
        VObj r (AtRule (VStr name) media (VArr (child :: children))) in
      Forall2 (fun c piece => print c node = Ok piece)
        (child :: children) pieces ->
      print node parent =
      Ok ([PToken (VStr ("@" ++ name)); PSpace; PToken media; PSpace] ++
          [PBlockStart None] ++ interleave [PNewline] pieces ++
          [PBlockEnd None])) /\
  (forall r name media parent,
      generate (VObj r (AtRule (VStr name) (VStr media) (VArr []))) parent =
      Ok ("@" ++ name ++ " " ++ media)%string) /\
  generate empty_media VUndefined = Ok "@media (min-width: 0)".
Proof.
  split; [| split; [| split]]; try reflexivity.
  intros r name media child children parent pieces node Hall. subst node.
  rewrite print_AtRule. unfold AtRule.generate.
  change (JS.truthy (VArr (child :: children)) &&
          length_gt (VArr (child :: children)) 0) with true.
  cbv iota. unfold for_each_in.
  change newline with (Ok [PNewline]).
  rewrite (for_each_ok _ [PNewline] Hall). reflexivity.
Qed.

Lemma at_rule_block_only_with_children_witness :
  print
    (VObj 9 (AtRule (VStr "media") (VStr "print") (VArr [box_rule])))
    VUndefined =
  Ok ([PToken (VStr ("@" ++ "media")); PSpace; PToken (VStr "print"); PSpace]
      ++ [PBlockStart None] ++
      interleave [PNewline]
        [[PToken (VStr ".box"); PSpace; PBlockStart None;
          PToken (VStr "color"); PToken (VStr ":"); PSpace;
          PToken (VStr "red"); PToken (VStr ";"); PBlockEnd None]] ++
      [PBlockEnd None]).
Proof.
  refine (proj1 (proj2 at_rule_block_only_with_children) 9
            "media" (VStr "print") box_rule [] VUndefined _ _).
  repeat constructor.
Defined.

(* ------------------------------------------------------------------------- *)
(** ** The printer only appends                                               *)
(* ------------------------------------------------------------------------- *)

Lemma write_extend (text earlier : string) (p : Printer.state) :
  Printer.write text (extend earlier p) = extend earlier (Printer.write text p).
Proof.
  unfold Printer.write, extend. simpl. now rewrite append_assoc.
Qed.

Lemma newline_extend (earlier : string) (p : Printer.state) :
  Printer.newline (extend earlier p) = extend earlier (Printer.newline p).
Proof.
  unfold Printer.newline, extend. simpl. now rewrite append_assoc.
Qed.

(** Every call appends: what the printer held before stays in front. *)
Lemma perform_extend (c : call) (earlier : string) (p : Printer.state) :
  Printer.perform (extend earlier p) c = extend earlier (Printer.perform p c).
Proof.
  destruct c as [v | | | | open | close]; simpl.
  - apply write_extend.
  - reflexivity.
  - apply newline_extend.
  - unfold Printer.maybeNewline. simpl.
    destruct (Printer.lineStart p); [reflexivity | apply newline_extend].
  - unfold Printer.blockStart.
    replace (Printer.before_brace open (extend earlier p))
      with (extend earlier (Printer.before_brace open p))
      by (destruct open; simpl; [reflexivity |];
          destruct (Printer.lineStart p); reflexivity).
    rewrite write_extend.
    set (q := Printer.write (Printer.delimiter open "{")
                (Printer.before_brace open p)).
    apply (newline_extend earlier
      (Printer.mk (Printer.buffer q) (S (Printer.indentLevel q))
         (Printer.lineStart q) (Printer.pendingSpace q))).
  - unfold Printer.blockEnd.
    rewrite <- write_extend. f_equal.
    apply (newline_extend earlier
      (Printer.mk (Printer.buffer p) (Nat.pred (Printer.indentLevel p))
         (Printer.lineStart p) (Printer.pendingSpace p))).
Qed.

Lemma run_extend (calls : list call) (earlier : string) (p : Printer.state) :
  Printer.run calls (extend earlier p) = extend earlier (Printer.run calls p).
Proof.
  revert p. induction calls as [| c calls IH]; intro p; [reflexivity |].
  unfold Printer.run in *. simpl. rewrite perform_extend. apply IH.
Qed.

(* ------------------------------------------------------------------------- *)
(** ** Constructors                                                           *)
(* ------------------------------------------------------------------------- *)

Lemma find_first (A : Type) (test : A -> bool) (l : list A) (x : A) :
  In x l -> test x = true ->
  exists found before after,
    l = before ++ found :: after /\
    Forall (fun y => test y = false) before /\
    test found = true /\
    find test l = Some found.
Proof.
  induction l as [| y l IH]; intros Hin Hx; [contradiction |].
  destruct (test y) eqn:Ey.
  - exists y, [], l. repeat split; [constructor | exact Ey |].
    simpl. now rewrite Ey.
  - destruct Hin as [-> | Hin]; [congruence |].
    destruct (IH Hin Hx) as (found & before & after & -> & Hb & Hf & Hfind).
    exists found, (y :: before), after.
    repeat split; [now constructor | exact Hf |].
    simpl. now rewrite Ey.
Qed.

Lemma find_none_all (A : Type) (test : A -> bool) (l : list A) :
  (forall x, In x l -> test x = false) -> find test l = None.
Proof.
  induction l as [| y l IH]; intro H; [reflexivity |].
  simpl. rewrite (H y) by now left. apply IH. intros x Hx. apply H. now right.
Qed.

(** C3.  When the value given for some field of the schema is rejected by
    the validator of that field, the constructor returns no node: it fails
    with one SchemaValidationError, which names the type, the first field of
    the schema that is violated, and the value given for that field.  So a
    SassNumber whose [value] is the string [not-a-number] is refused on
    [value], and a Rule whose [declarations] is no array is refused on
    [declarations].  When no field is violated the node is returned. *)
Theorem constructor_fails_on_first_violation :
  (forall k given ref f,
      In f (fields k) ->
      violated given f = true ->
      exists found before after,
        fields k = before ++ found :: after /\
        Forall (fun earlier => violated given earlier = false) before /\
        violated given found = true /\
        makeInvocableDefinition k given ref =
        Err (SchemaValidationError (kind_name k) (field_name found)
               (prop (field_name found) given))) /\
  (forall k given ref,
      (forall f, In f (fields k) -> violated given f = false) ->
      makeInvocableDefinition k given ref = Ok (VObj ref (node_of k given))) /\
  (forall ref,
      makeInvocableDefinition KSassNumber [("value", VStr "not-a-number")] ref
      = Err (SchemaValidationError "SassNumber" "value"
               (VStr "not-a-number"))) /\
  (forall ref declarations,
      JS.isArray declarations = false ->
      makeInvocableDefinition KRule
        [("selectors", VArr []); ("declarations", declarations)] ref
      = Err (SchemaValidationError "Rule" "declarations" declarations)).
Proof.
  split; [| split; [| split]].
  - intros k given ref f Hin Hf.
    destruct (find_first (violated given) (fields k) f Hin Hf)
      as (found & before & after & Hsplit & Hbefore & Hfound & Hfind).
    exists found, before, after. repeat split; try assumption.
    unfold makeInvocableDefinition. now rewrite Hfind.
  - intros k given ref Hall. unfold makeInvocableDefinition.
    now rewrite (find_none_all _ _ Hall).
  - reflexivity.
  - intros ref declarations Harray.
    destruct declarations; try discriminate Harray; reflexivity.
Qed.

Lemma constructor_fails_on_first_violation_witness :
  exists found before after,
    fields KRule = before ++ found :: after /\
    Forall (fun earlier =>
              violated [("selectors", VNum 1); ("declarations", VStr "none")]
                earlier = false) before /\
    violated [("selectors", VNum 1); ("declarations", VStr "none")] found
    = true /\
    makeInvocableDefinition KRule
      [("selectors", VNum 1); ("declarations", VStr "none")] 0 =
    Err (SchemaValidationError (kind_name KRule) (field_name found)
           (prop (field_name found)
              [("selectors", VNum 1); ("declarations", VStr "none")])).
Proof.
  refine (proj1 constructor_fails_on_first_violation KRule
            [("selectors", VNum 1); ("declarations", VStr "none")] 0
            (required "selectors" (arrayOf (assertValueType TString))) _ _).
  - simpl. tauto.
  - reflexivity.
Defined.

(* ------------------------------------------------------------------------- *)
(** ** Induction on trees                                                     *)
(* ------------------------------------------------------------------------- *)

Lemma value_induction (P : value -> Prop) :
  (forall v, is_object v = false -> P v) ->
  (forall r n, Forall (deep P) (node_fields n) -> P (VObj r n)) ->
  forall v, deep P v.
Proof.
  intros Hprim Hobj. fix IH 1.
  intros [| | b | z | s | l | r n];
    try (split; [apply Hprim; reflexivity | exact I]).
  - split; [apply Hprim; reflexivity |].
    revert l. fix IHl 1. intros [| x l]; constructor.
    + apply IH.
    + apply IHl.
  - split; [| exact I]. apply Hobj.
    destruct n; simpl; repeat constructor; apply IH.
Qed.

(* ------------------------------------------------------------------------- *)
(** ** Blocks are well nested                                                 *)
(* ------------------------------------------------------------------------- *)

Lemma depth_after_app (xs ys : list call) (d : nat) :
  depth_after (xs ++ ys) d =
  match depth_after xs d with
  | Some d' => depth_after ys d'
  | None => None
  end.
Proof.
  revert d. induction xs as [| c xs IH]; intro d; [reflexivity |].
  destruct c; simpl; try apply IH. destruct d; [reflexivity | apply IH].
Qed.

Lemma well_nested_app (xs ys : list call) :
  well_nested xs -> well_nested ys -> well_nested (xs ++ ys).
Proof. intros Hx Hy d. now rewrite depth_after_app, Hx, Hy. Qed.

Lemma well_nested_block (open close : option string) (xs : list call) :
  well_nested xs ->
  well_nested ([PBlockStart open] ++ xs ++ [PBlockEnd close]).
Proof. intros Hx d. simpl. now rewrite depth_after_app, Hx. Qed.

Lemma wn_seq (a b : Emit) :
  emits_well_nested a -> emits_well_nested b -> emits_well_nested (a ;; b).
Proof.
  intros Ha Hb calls H. apply seq_ok_inv in H as (xs & ys & Hx & Hy & ->).
  apply well_nested_app; auto.
Qed.

Lemma wn_block (open close : option string) (a : Emit) :
  emits_well_nested a ->
  emits_well_nested (blockStart open ;; a ;; blockEnd close).
Proof.
  intros Ha calls H. apply seq_ok_inv in H as (xs & ys & Hx & Hy & ->).
  apply seq_ok_inv in Hy as (ys1 & ys2 & Hy1 & Hy2 & ->).
  injection Hx as <-. injection Hy2 as <-.
  apply well_nested_block. auto.
Qed.

Lemma wn_err (e : error) : emits_well_nested (Err e).
Proof. intros calls H. discriminate. Qed.

Lemma wn_skip : emits_well_nested skip.
Proof. intros calls H d. now injection H as <-. Qed.

Lemma wn_token v : emits_well_nested (token v).
Proof. intros calls H d. now injection H as <-. Qed.

Lemma wn_str s : emits_well_nested (str s).
Proof. intros calls H d. now injection H as <-. Qed.

Lemma wn_space : emits_well_nested space.
Proof. intros calls H d. now injection H as <-. Qed.

Lemma wn_newline : emits_well_nested newline.
Proof. intros calls H d. now injection H as <-. Qed.

Lemma wn_maybeNewline : emits_well_nested maybeNewline.
Proof. intros calls H d. now injection H as <-. Qed.

Lemma wn_for_each (A : Type) (body : A -> Emit) (between : Emit)
  (l : list A) :
  Forall (fun x => emits_well_nested (body x)) l ->
  emits_well_nested between ->
  emits_well_nested (for_each body between l).
Proof.
  intros Hall Hsep. induction Hall as [| x rest Hx _ IH]; [apply wn_skip |].
  simpl. destruct rest as [| y rest']; [exact Hx |].
  apply wn_seq; [exact Hx |]. apply wn_seq; [exact Hsep | exact IH].
Qed.

Lemma wn_for_each_in (body : value -> Emit) (between : Emit)
  (collection : value) :
  deep (fun x => emits_well_nested (body x)) collection ->
  emits_well_nested between ->
  emits_well_nested (for_each_in body between collection).
Proof.
  intros [_ Hdeep] Hsep.
  destruct collection as [| | b | z | s | l | r n]; simpl;
    try apply wn_err; try apply wn_skip.
  - destruct (s =? "")%string; [apply wn_skip | apply wn_err].
  - now apply wn_for_each.
Qed.

Lemma wn_if_array (collection : value) (body : list value -> Emit) :
  (forall l, collection = VArr l -> emits_well_nested (body l)) ->
  emits_well_nested (if_array collection body).
Proof.
  intro H. destruct collection; simpl; try apply wn_skip. now apply H.
Qed.

Lemma wn_when (condition : result bool) (body : Emit) :
  emits_well_nested body -> emits_well_nested (when condition body).
Proof.
  intro H. destruct condition as [[|] | e]; simpl;
    [exact H | apply wn_skip | apply wn_err].
Qed.

Lemma wn_comma : emits_well_nested comma.
Proof. apply wn_seq; [apply wn_str | apply wn_space]. Qed.

Lemma deep_weaken (P Q : value -> Prop) (v : value) :
  (forall x, P x -> Q x) -> deep P v -> deep Q v.
Proof.
  intros H [Hv Hl]. split; [auto |].
  destruct v; try exact I. eapply Forall_impl; eauto.
Qed.

Create HintDb wn.
#[local] Hint Resolve wn_err wn_skip wn_token wn_str wn_space wn_newline
  wn_maybeNewline wn_comma : wn.

Ltac unfold_routine :=
  cbn [print];
  unfold Comment.generate, Identifier.generate, BlockStatement.generate,
    SassBoolean.generate, SassColor.generate, SassFunction.generate,
    SassList.generate, SassMap.generate, SassMapProperty.generate,
    SassMixin.generate, SassNumber.generate, SassString.generate,
    SassValue.generate, SassFunctionCall.generate, SassMixinCall.generate,
    Rule.generate, Declaration.generate, AtRule.generate,
    AtContent.generate, AtReturn.generate, Assignment.generate,
    AssignmentPattern.generate, RestPattern.generate, SassImport.generate,
    SassModule.generate, SassForward.generate, load_statement,
    IfStatement.generate, LogicalExpression.generate,
    CallExpression.generate, Newline.generate, StyleSheet.generate.

Lemma wn_call_param (node param : value) :
  emits_well_nested (print param node) ->
  emits_well_nested (call_param print node param).
Proof.
  intro H. unfold call_param. apply wn_seq; [| exact H].
  destruct (JS.nullish param); [apply wn_err |].
  destruct (has_type param KIdentifier); auto with wn.
Qed.

Lemma wn_separator (node parent : value) :
  emits_well_nested (Assignment.separator node parent).
Proof.
  unfold Assignment.separator.
  destruct (JS.truthy _ && length_gt _ 1); [| apply wn_skip].
  destruct (JS.or _ _); try apply wn_err.
  destruct (Assignment.assignments_of _); [| apply wn_err].
  destruct (_ || _)%bool; auto with wn.
Qed.

Ltac wn_step :=
  match goal with
  | |- emits_well_nested (blockStart _ ;; _ ;; blockEnd _) => apply wn_block
  | |- emits_well_nested (_ ;; _) => apply wn_seq
  | |- emits_well_nested (for_each_in _ _ _) => apply wn_for_each_in
  | |- emits_well_nested (if_array _ _) => apply wn_if_array; intros ? ->
  | |- emits_well_nested (for_each _ _ _) => apply wn_for_each
  | |- emits_well_nested (when _ _) => apply wn_when
  | |- emits_well_nested (Assignment.separator _ _) => apply wn_separator
  | |- emits_well_nested (if ?c then _ else _) => destruct c
  | |- emits_well_nested (match ?x with _ => _ end) => destruct x
  | |- emits_well_nested (print ?x ?p) =>
      match goal with H : deep _ x |- _ => exact (proj1 H p) end
  | |- deep _ ?x =>
      match goal with
      | H : deep _ x |- _ =>
          refine (@deep_weaken _ _ _ _ H); cbv beta; intros ? Hy; apply Hy
      end
  | |- Forall _ ?l =>
      match goal with
      | H : deep _ (VArr l) |- _ =>
          refine (Forall_impl _ _ (proj2 H)); cbv beta; intros;
          try apply wn_call_param; auto
      | |- _ => apply Forall_forall; intros
      end
  | |- _ => solve [auto with wn]
  end.

(** The calls of every run are well nested. *)
Lemma print_well_nested (v : value) :
  deep (fun x => forall parent, emits_well_nested (print x parent)) v.
Proof.
  apply value_induction.
  - intros x Hx parent. destruct x; try discriminate Hx; apply wn_err.
  - intros r n Hfields parent.
    destruct n; simpl in Hfields;
      repeat match goal with
             | H : Forall _ (_ :: _) |- _ => inversion H; subst; clear H
             | H : Forall _ [] |- _ => clear H
             end;
      unfold_routine; repeat wn_step.
Qed.

Lemma indent_after_perform (c : call) (p : Printer.state) (d' : nat) :
  depth_after [c] (Printer.indentLevel p) = Some d' ->
  Printer.indentLevel (Printer.perform p c) = d'.
Proof.
  destruct p as [b d at_start pending].
  destruct c as [v | | | | open | close]; simpl;
    try (intro H; injection H as <-; reflexivity).
  - intro H; injection H as <-. now destruct at_start.
  - intro H; injection H as <-. now destruct open, at_start.
  - destruct d as [| d]; [discriminate |].
    intro H; injection H as <-. reflexivity.
Qed.

Lemma indent_after_run (calls : list call) (p : Printer.state) (d' : nat) :
  depth_after calls (Printer.indentLevel p) = Some d' ->
  Printer.indentLevel (Printer.run calls p) = d'.
Proof.
  revert p. induction calls as [| c calls IH]; intros p H.
  - now injection H as <-.
  - change (c :: calls) with ([c] ++ calls) in H.
    rewrite depth_after_app in H.
    destruct (depth_after [c] (Printer.indentLevel p)) as [d1 |] eqn:E;
      [| discriminate].
    apply indent_after_perform in E.
    change (Printer.run (c :: calls) p)
      with (Printer.run calls (Printer.perform p c)).
    apply IH. now rewrite E.
Qed.

(** X1.  In every run that succeeds the blocks are well nested: counted
    from any depth, the [blockStart] and [blockEnd] calls bring the depth
    back to where it was and never close a block that is not open.  The
    printer therefore ends every run at the indent it started with. *)
Theorem blocks_are_well_nested :
  forall tree parent calls,
    print tree parent = Ok calls ->
    well_nested calls /\
    (forall p, Printer.indentLevel (Printer.run calls p) =
               Printer.indentLevel p).
Proof.
  intros tree parent calls H.
  assert (Hwn : well_nested calls)
    by exact (proj1 (print_well_nested tree) parent calls H).
  split; [exact Hwn |].
  intro p. apply indent_after_run. apply Hwn.
Qed.

Lemma blocks_are_well_nested_witness :
  well_nested
    ([PToken (VStr (JS.join ", " [VStr ".box"])); PSpace; PBlockStart None]
     ++ interleave [PNewline]
          [[PToken (VStr "color"); PToken (VStr ":"); PSpace;
            PToken (VStr "red"); PToken (VStr ";")]]
     ++ [PBlockEnd None]).
Proof.
  exact (proj1 (@blocks_are_well_nested box_rule VUndefined _ eq_refl)).
Defined.

(* ------------------------------------------------------------------------- *)
(** ** What a routine sees of its parent                                      *)
(* ------------------------------------------------------------------------- *)

Lemma takes_sigil_same (p q : value) :
  (in_sigil_position p <-> in_sigil_position q) ->
  Identifier.takes_sigil p = Identifier.takes_sigil q.
Proof.
  intro H. rewrite <- !takes_sigil_iff in H.
  destruct (Identifier.takes_sigil p), (Identifier.takes_sigil q);
    try reflexivity.
  - symmetry. now apply H.
  - now apply H.
Qed.

Lemma if_test_same (p q : value) :
  (under_if p <-> under_if q) ->
  JS.truthy p && has_type p KIfStatement =
  JS.truthy q && has_type q KIfStatement.
Proof.
  intro H. rewrite <- !under_if_test in H.
  destruct (JS.truthy p && has_type p KIfStatement),
    (JS.truthy q && has_type q KIfStatement); try reflexivity.
  - symmetry. now apply H.
  - now apply H.
Qed.

Lemma separator_condition (node p : value) :
  (if JS.truthy p then Assignment.separator node p else skip) =
  Assignment.separator node p.
Proof.
  destruct p as [| | [|] | z | s | l | r n]; try reflexivity.
  - simpl. destruct (negb _); reflexivity.
  - simpl. destruct (s =? "")%string; reflexivity.
Qed.

Lemma separator_same (node p q : value) :
  get_children p = get_children q -> get_body p = get_body q ->
  Assignment.separator node p = Assignment.separator node q.
Proof. intros Hc Hb. unfold Assignment.separator. now rewrite Hc, Hb. Qed.

Lemma not_first_in_body_same (node p q : value) :
  get_body p = get_body q ->
  not_first_in_body p node = not_first_in_body q node.
Proof.
  intro Hb. unfold not_first_in_body. rewrite Hb.
  destruct p as [| | b | z | s | l | r n], q as [| | b' | z' | s' | l' | r' n'];
    simpl in *; try reflexivity; try (rewrite <- Hb; reflexivity);
    try (rewrite Hb; reflexivity).
Qed.

Lemma print_same_context (v : value) :
  deep (fun x => forall p q, same_context p q -> print x p = print x q) v.
Proof.
  apply value_induction.
  - intros x Hx p q _. destruct x; try discriminate Hx; reflexivity.
  - intros r n Hfields p q (Hsigil & Hif & Hchildren & Hbody).
    assert (Hctx : same_context p q) by (repeat split; tauto).
    destruct n; simpl in Hfields;
      repeat match goal with
             | H : Forall _ (_ :: _) |- _ => inversion H; subst; clear H
             | H : Forall _ [] |- _ => clear H
             end;
      try reflexivity; unfold_routine.
    + now rewrite (@takes_sigil_same p q Hsigil).
    + match goal with
      | Hid : deep _ id, Hb : deep _ body |- _ =>
          now rewrite (proj1 Hid p q Hctx), (proj1 Hb p q Hctx)
      end.
    + match goal with
      | Hid : deep _ id, Hb : deep _ body |- _ =>
          now rewrite (proj1 Hid p q Hctx), (proj1 Hb p q Hctx)
      end.
    + now rewrite (@not_first_in_body_same _ p q Hbody).
    + now rewrite (@not_first_in_body_same _ p q Hbody).
    + now rewrite !separator_condition, (@separator_same _ p q Hchildren Hbody).
    + match goal with
      | Hid : deep _ id |- _ => now rewrite (proj1 Hid p q Hctx)
      end.
    + now rewrite (@if_test_same p q Hif).
Qed.

(** X2.  A routine sees of its parent only whether its type gives
    identifiers their sigil, whether it is an IfStatement, and its
    [children] and [body]: under two parents that agree on these, every
    tree prints the same.  Nodes of any type but Identifier, SassFunction,
    SassMixin, RestPattern, AtContent, AtReturn, Assignment and IfStatement
    print the same under every parent. *)
Theorem parent_is_seen_through_its_context :
  (forall tree p q, same_context p q -> print tree p = print tree q) /\
  (forall r n p q,
      ~ In (kind_of n) parent_sensitive ->
      print (VObj r n) p = print (VObj r n) q).
Proof.
  split.
  - intros tree p q H. exact (proj1 (print_same_context tree) p q H).
  - intros r n p q H.
    destruct n; try reflexivity; exfalso; apply H; simpl; tauto.
Qed.

Lemma parent_is_seen_through_its_context_witness :
  print second_assignment interleaved_sheet =
  print second_assignment
    (VObj 20 (AtRule (VStr "media") (VStr "print")
                (VArr interleaved_siblings))) /\
  print box_rule VUndefined = print box_rule interleaved_sheet.
Proof.
  destruct parent_is_seen_through_its_context as [Hcontext Hblind].
  split.
  - apply Hcontext. repeat split; try reflexivity;
      try (intros (k & Hk & Hin); injection Hk as <-; simpl in Hin;
           repeat (destruct Hin as [Hin | Hin]; [discriminate Hin |]);
           contradiction);
      try (intro H; discriminate H).
  - apply Hblind. simpl. intro H.
    repeat (destruct H as [H | H]; [discriminate H |]). contradiction.
Defined.

(* ------------------------------------------------------------------------- *)
(** ** Functions and mixins                                                   *)
(* ------------------------------------------------------------------------- *)

Lemma for_each_ext (A : Type) (f g : A -> Emit) (between : Emit)
  (l : list A) :
  (forall x, f x = g x) -> for_each f between l = for_each g between l.
Proof.
  intro H. induction l as [| x rest IH]; [reflexivity |].
  simpl. rewrite H, IH. reflexivity.
Qed.

Lemma function_mixin_context r id params body :
  same_context (VObj r (SassFunction id params body))
    (VObj r (SassMixin id params body)).
Proof.
  repeat split; try reflexivity;
    try (intros _; eexists; split; [reflexivity | simpl; tauto]);
    intro H; discriminate H.
Qed.

Lemma keyword_first (keyword : string) (rest : Emit) (calls : list call) :
  str keyword ;; rest = Ok (PToken (VStr keyword) :: calls) <->
  rest = Ok calls.
Proof.
  destruct rest as [ys | e]; simpl; split; intro H;
    try discriminate H; now injection H as <-.
Qed.

(** X3.  A function and a mixin with the same [id], [params] and [body]
    make the same calls after their keyword, under every parent: whatever
    the one renders after [@function] the other renders after [@mixin], and
    the one fails exactly when the other does, with the same error. *)
Theorem function_and_mixin_share_their_shape :
  forall r id params body parent,
    (exists tail : Emit,
        print (VObj r (SassFunction id params body)) parent =
        str "@function" ;; tail /\
        print (VObj r (SassMixin id params body)) parent =
        str "@mixin" ;; tail) /\
    (forall rest,
        print (VObj r (SassFunction id params body)) parent =
        Ok (PToken (VStr "@function") :: rest) <->
        print (VObj r (SassMixin id params body)) parent =
        Ok (PToken (VStr "@mixin") :: rest)) /\
    (forall e,
        print (VObj r (SassFunction id params body)) parent = Err e <->
        print (VObj r (SassMixin id params body)) parent = Err e).
Proof.
  intros r id params body parent.
  assert (Hparams :
    if_array params
      (for_each (fun param =>
                   print param (VObj r (SassFunction id params body))) comma)
    = if_array params
        (for_each (fun param =>
                     print param (VObj r (SassMixin id params body))) comma)).
  { destruct params; try reflexivity. simpl. apply for_each_ext.
    intro x. exact (proj1 (print_same_context x) _ _
                      (function_mixin_context r id (VArr elems) body)). }
  unfold_routine. rewrite Hparams.
  set (tail := space ;; print id parent ;; str "(" ;; _).
  split; [now exists tail |]. split.
  - intro rest. now rewrite !keyword_first.
  - intro e. destruct tail as [ys | e']; simpl; split; intro H;
      try discriminate H; exact H.
Qed.

(* ------------------------------------------------------------------------- *)
(** ** Calls of functions and mixins                                          *)
(* ------------------------------------------------------------------------- *)

Lemma call_params_ok (node : value) (params : list value)
  (pieces : list (list call)) :
  Forall2 (fun param piece =>
             JS.nullish param = false /\ print param node = Ok piece)
    params pieces ->
  for_each (call_param print node) comma params =
  Ok (interleave [PToken (VStr ","); PSpace] (loop_pieces params pieces)).
Proof.
  intro Hall. rewrite comma_calls. apply for_each_ok.
  induction Hall as [| param piece params pieces [Hnull Hpiece] _ IH];
    constructor; [| exact IH].
  unfold call_param, with_loop_sigil. rewrite Hnull, Hpiece.
  now destruct (has_type param KIdentifier).
Qed.

Lemma for_each_fails (A : Type) (body : A -> Emit) (between : Emit)
  (before after : list A) (x : A) (e : error) :
  body x = Err e ->
  forall calls, for_each body between (before ++ x :: after) <> Ok calls.
Proof.
  intros Hx calls H.
  apply for_each_ok_inv in H as (pieces & Hall & _).
  apply Forall2_app_inv_l in Hall as (p1 & p2 & _ & Hrest & _).
  inversion Hrest as [| ? piece ? ? Hpiece]; subst. congruence.
Qed.

Lemma seq_fails_r (a b : Emit) :
  (forall calls, b <> Ok calls) -> forall calls, a ;; b <> Ok calls.
Proof.
  intros Hb calls H. apply seq_ok_inv in H as (xs & ys & _ & Hy & _).
  exact (Hb _ Hy).
Qed.

Lemma seq_fails_l (a b : Emit) :
  (forall calls, a <> Ok calls) -> forall calls, a ;; b <> Ok calls.
Proof.
  intros Ha calls H. apply seq_ok_inv in H as (xs & ys & Hx & _ & _).
  exact (Ha _ Hx).
Qed.

(** X4.  In the parameters of a SassFunctionCall and of a SassMixinCall the
    sigil comes from the loop of the call: an identifier parameter is
    printed bare under the call and the loop puts one [$] in front of it,
    any other parameter is printed as it is, and the parameters are
    separated by a comma and a space.  A parameter that is [undefined] or
    [null] makes the run fail. *)
Theorem call_parameters_take_their_sigil_from_the_loop :
  (forall r id params parent head pieces,
      let node := VObj r (SassFunctionCall id (VArr params)) in
      print id VUndefined = Ok head ->
      Forall2 (fun param piece =>
                 JS.nullish param = false /\ print param node = Ok piece)
        params pieces ->
      print node parent =
      Ok ([PSpace] ++ head ++ [PToken (VStr "(")] ++
          interleave [PToken (VStr ","); PSpace] (loop_pieces params pieces)
          ++ [PToken (VStr ")")])) /\
  (forall r id params parent head pieces,
      let node := VObj r (SassMixinCall id (VArr params) VUndefined) in
      print id VUndefined = Ok head ->
      Forall2 (fun param piece =>
                 JS.nullish param = false /\ print param node = Ok piece)
        params pieces ->
      print node parent =
      Ok ([PToken (VStr "@include"); PSpace] ++ head ++ [PToken (VStr "(")] ++
          interleave [PToken (VStr ","); PSpace] (loop_pieces params pieces)
          ++ [PToken (VStr ")"); PToken (VStr ";")])) /\
  (forall r n ri x,
      kind_of n = KSassFunctionCall \/ kind_of n = KSassMixinCall ->
      print (ident ri x) (VObj r n) = Ok [PToken (VStr x)] /\
      with_loop_sigil (ident ri x) [PToken (VStr x)] =
      [PToken (VStr "$"); PToken (VStr x)]) /\
  (forall r id before missing after body parent calls,
      JS.nullish missing = true ->
      print (VObj r (SassFunctionCall id (VArr (before ++ missing :: after))))
        parent <> Ok calls /\
      print (VObj r (SassMixinCall id (VArr (before ++ missing :: after))
                       body))
        parent <> Ok calls).
Proof.
  split; [| split; [| split]].
  - intros r id params parent head pieces node Hid Hall. subst node.
    unfold_routine. rewrite Hid. unfold if_array.
    rewrite (@call_params_ok _ _ _ Hall). reflexivity.
  - intros r id params parent head pieces node Hid Hall. subst node.
    unfold_routine. rewrite Hid. unfold if_array.
    rewrite (@call_params_ok _ _ _ Hall). reflexivity.
  - intros r n ri x Hkind. split; [| reflexivity].
    apply ident_bare. intros (k & Hk & Hin). injection Hk as <-.
    destruct Hkind as [Hkind | Hkind]; rewrite Hkind in Hin; simpl in Hin;
      repeat (destruct Hin as [Hin | Hin]; [discriminate Hin |]);
      contradiction.
  - intros r id before missing after body parent calls Hmissing.
    assert (Hloop : forall node calls',
      for_each (call_param print node) comma (before ++ missing :: after)
      <> Ok calls').
    { intro node. apply for_each_fails with (e := TypeError).
      unfold call_param. now rewrite Hmissing. }
    split; unfold_routine; unfold if_array;
      repeat first [ solve [apply seq_fails_l; apply Hloop]
                   | apply seq_fails_r ].
Qed.

Lemma call_parameters_take_their_sigil_from_the_loop_witness :
  print (VObj 1 (SassFunctionCall (ident 2 "darken")
                   (VArr [ident 3 "base"; VObj 4 (SassNumber (VNum 10))])))
    VUndefined =
  Ok ([PSpace] ++ [PToken (VStr "darken")] ++ [PToken (VStr "(")] ++
      interleave [PToken (VStr ","); PSpace]
        (loop_pieces [ident 3 "base"; VObj 4 (SassNumber (VNum 10))]
           [[PToken (VStr "base")]; [PToken (VNum 10)]])
      ++ [PToken (VStr ")")]) /\
  print (VObj 1 (SassFunctionCall (ident 2 "darken") (VArr [VNull])))
    VUndefined <> Ok [].
Proof.
  destruct call_parameters_take_their_sigil_from_the_loop
    as (Hcall & _ & _ & Hmissing).
  split.
  - apply (Hcall 1 (ident 2 "darken")
             [ident 3 "base"; VObj 4 (SassNumber (VNum 10))] VUndefined
             [PToken (VStr "darken")]
             [[PToken (VStr "base")]; [PToken (VNum 10)]]).
    + reflexivity.
    + repeat constructor.
  - apply (Hmissing 1 (ident 2 "darken") [] VNull [] VUndefined VUndefined []).
    reflexivity.
Defined.

(* ------------------------------------------------------------------------- *)
(** ** The flags of an assignment                                             *)
(* ------------------------------------------------------------------------- *)

(** X5.  After its value an assignment emits [ !default] when [default] is
    set and [!global] when [global] is set.  The space in front of [!global]
    is emitted only together with [!default]: an assignment that is global
    but not default emits [!global] right after its value. *)
Theorem assignment_flags :
  forall r id init default global target value_calls,
    let node := VObj r (Assignment id init default global) in
    print id node = Ok target ->
    print init node = Ok value_calls ->
    print node VUndefined =
    Ok (target ++ [PToken (VStr ":"); PSpace] ++ value_calls ++
        flag_calls default global ++ [PToken (VStr ";")]) /\
    (JS.truthy default = false -> JS.truthy global = true ->
     flag_calls default global = [PToken (VStr "!global")]).
Proof.
  intros r id init default global target value_calls node Hid Hinit.
  subst node. split.
  - unfold_routine. rewrite Hid, Hinit. unfold flag_calls.
    destruct (JS.truthy default), (JS.truthy global); simpl;
      rewrite <- ?app_assoc; simpl; rewrite ?app_nil_r; reflexivity.
  - intros Hd Hg. unfold flag_calls. now rewrite Hd, Hg.
Qed.

Lemma assignment_flags_witness :
  print (VObj 1 (Assignment (ident 2 "gap") (VObj 3 (SassNumber (VNum 4)))
                   VUndefined (VBool true))) VUndefined =
  Ok ([PToken (VStr "$"); PToken (VStr "gap")] ++
      [PToken (VStr ":"); PSpace] ++ [PToken (VNum 4)] ++
      flag_calls VUndefined (VBool true) ++ [PToken (VStr ";")]).
Proof.
  exact (proj1 (@assignment_flags 1 (ident 2 "gap")
                  (VObj 3 (SassNumber (VNum 4))) VUndefined (VBool true)
                  _ _ eq_refl eq_refl)).
Defined.

(* ------------------------------------------------------------------------- *)
(** ** Rest patterns                                                          *)
(* ------------------------------------------------------------------------- *)

(** X6.  A RestPattern prints its identifier under the parent of the
    pattern, not under the pattern: the identifier carries the [$] exactly
    when the pattern itself stands where identifiers carry it.  Among the
    parameters of a function or a mixin it renders [$x...]; on its own, or
    as a statement of a block, it renders [x...]. *)
Theorem rest_pattern_follows_its_parent :
  forall r ri x parent,
    (in_sigil_position parent ->
     print (VObj r (RestPattern (ident ri x))) parent =
     Ok [PToken (VStr "$"); PToken (VStr x); PToken (VStr "...")]) /\
    (~ in_sigil_position parent ->
     print (VObj r (RestPattern (ident ri x))) parent =
     Ok [PToken (VStr x); PToken (VStr "...")]).
Proof.
  intros r ri x parent. split; intro H; unfold_routine.
  - now rewrite (ident_with_sigil _ _ H).
  - now rewrite (ident_bare _ _ H).
Qed.

Lemma rest_pattern_follows_its_parent_witness :
  print (VObj 5 (RestPattern (ident 6 "args")))
    (VObj 1 (SassMixin (ident 2 "m")
               (VArr [VObj 5 (RestPattern (ident 6 "args"))])
               (VObj 3 (BlockStatement (VArr [])))))
  = Ok [PToken (VStr "$"); PToken (VStr "args"); PToken (VStr "...")] /\
  print (VObj 5 (RestPattern (ident 6 "args")))
    (VObj 3 (BlockStatement (VArr [VObj 5 (RestPattern (ident 6 "args"))])))
  = Ok [PToken (VStr "args"); PToken (VStr "...")].
Proof.
  split.
  - apply (proj1 (rest_pattern_follows_its_parent 5 6 "args" _)).
    eexists. split; [reflexivity | simpl; tauto].
  - apply (proj2 (rest_pattern_follows_its_parent 5 6 "args" _)).
    intros (k & Hk & Hin). injection Hk as <-. simpl in Hin.
    repeat (destruct Hin as [Hin | Hin]; [discriminate Hin |]).
    contradiction.
Defined.

(* ------------------------------------------------------------------------- *)
(** ** Literals and load statements                                           *)
(* ------------------------------------------------------------------------- *)

(** The literals render as their text: a SassString between single
    quotes, with no escaping of what is between them, a SassNumber as the
    text of the number, a SassBoolean as [true] or [false], a SassColor as it
    is, and a SassValue as the text of whatever it holds. *)
Theorem literals_render_as_text :
  forall r parent,
    (forall s, generate (VObj r (SassString (VStr s))) parent =
               Ok ("'" ++ s ++ "'")%string) /\
    (forall text, generate (VObj r (SassNumber (VNumber text))) parent =
                  Ok text) /\
    (forall b, generate (VObj r (SassBoolean (VBool b))) parent =
               Ok (if b then "true" else "false")) /\
    (forall s, generate (VObj r (SassColor (VStr s))) parent = Ok s) /\
    (forall v, generate (VObj r (SassValue v)) parent = Ok (JS.toString v)).
Proof.
  intros r parent. repeat split; reflexivity.
Qed.

(** [@import], [@use] and [@forward] render as the keyword, a space,
    the path between single quotes, and [;]. *)
Theorem load_statements_render :
  forall r parent path,
    generate (VObj r (SassImport (VStr path))) parent =
    Ok ("@import '" ++ path ++ "';")%string /\
    generate (VObj r (SassModule (VStr path))) parent =
    Ok ("@use '" ++ path ++ "';")%string /\
    generate (VObj r (SassForward (VStr path))) parent =
    Ok ("@forward '" ++ path ++ "';")%string.
Proof.
  intros r parent path.
  repeat split; unfold generate, generate_from; simpl;
    unfold Printer.token, Printer.space, Printer.write; simpl;
    rewrite ?append_assoc; reflexivity.
Qed.

(* ------------------------------------------------------------------------- *)
(** ** Identifiers that stay bare                                             *)
(* ------------------------------------------------------------------------- *)

Lemma bare_under (ref : nat) (n : node) (ri : nat) (x : string) :
  ~ In (kind_of n) sigil_parents ->
  print (ident ri x) (VObj ref n) = Ok [PToken (VStr x)].
Proof.
  intro H. apply ident_bare. intros (k & Hk & Hin).
  injection Hk as <-. contradiction.
Qed.

(** X7.  An identifier that is the argument of an AtReturn or the test of
    an IfStatement is printed under that node and so without the [$]:
    [@return x;] and [@if x]. *)
Theorem identifiers_stay_bare_in_return_and_test :
  (forall r ri x parent,
      body_array_or_absent parent ->
      ~ first_in_body parent (VObj r (AtReturn (ident ri x))) ->
      print (VObj r (AtReturn (ident ri x))) parent =
      Ok [PMaybeNewline; PToken (VStr "@return"); PSpace; PToken (VStr x);
          PToken (VStr ";")]) /\
  (forall r ri x,
      generate (VObj r (AtReturn (ident ri x))) VUndefined =
      Ok ("@return " ++ x ++ ";")%string) /\
  (forall r ri x consequent alternate parent calls,
      ~ under_if parent ->
      print (VObj r (IfStatement (ident ri x) consequent alternate)) parent
      = Ok calls ->
      exists rest,
        calls = PToken (VStr "@if") :: PSpace :: PToken (VStr x) :: rest).
Proof.
  split; [| split].
  - intros r ri x parent Hbody Hfirst. unfold_routine.
    rewrite (proj2 (not_first_in_body_spec _ Hbody) Hfirst).
    fold (ident ri x). rewrite bare_under by (simpl; intuition discriminate).
    reflexivity.
  - intros r ri x. unfold generate, generate_from. simpl.
    unfold Printer.token, Printer.space, Printer.write. simpl.
    now rewrite ?append_assoc.
  - intros r ri x consequent alternate parent calls Hparent H.
    rewrite print_IfStatement in H. unfold IfStatement.generate in H.
    rewrite (if_keyword_root Hparent) in H.
    rewrite bare_under in H by (simpl; intuition discriminate).
    do 3 peel H. simpl. eauto.
Qed.

Lemma identifiers_stay_bare_in_return_and_test_witness :
  print (VObj 3 (AtReturn (ident 4 "x")))
    (VObj 1 (BlockStatement (VArr [VObj 2 AtContent;
                                   VObj 3 (AtReturn (ident 4 "x"))]))) =
  Ok [PMaybeNewline; PToken (VStr "@return"); PSpace; PToken (VStr "x");
      PToken (VStr ";")].
Proof.
  apply (proj1 identifiers_stay_bare_in_return_and_test 3 4 "x").
  - right. right. eexists. reflexivity.
  - intros (f & t & H & Hf). injection H as <- _. discriminate Hf.
Defined.

(* ------------------------------------------------------------------------- *)
(** ** The space in front of a function call                                  *)
(* ------------------------------------------------------------------------- *)

(** X8.  A SassFunctionCall opens with a space of its own.  As the value
    of an assignment it therefore follows the space that the assignment
    emits after its colon: the printer is asked for two spaces in a row
    between [:] and the name of the function. *)
Theorem function_call_value_is_spaced_twice :
  forall r r' id callee params default global parent calls,
    let node :=
      VObj r (Assignment id (VObj r' (SassFunctionCall callee params))
                default global) in
    print node parent = Ok calls ->
    exists target name rest,
      print id node = Ok target /\
      print callee VUndefined = Ok name /\
      calls = target ++ [PToken (VStr ":"); PSpace; PSpace] ++ name ++
              PToken (VStr "(") :: rest.
Proof.
  intros r r' id callee params default global parent calls node H.
  subst node. rewrite print_Assignment in H.
  unfold Assignment.generate in H.
  apply seq_ok_inv in H as (target & rest1 & Htarget & H & ->).
  do 2 peel H.
  apply seq_ok_inv in H as (value_calls & rest2 & Hvalue & _ & ->).
  rewrite print_SassFunctionCall in Hvalue.
  unfold SassFunctionCall.generate in Hvalue.
  peel Hvalue.
  apply seq_ok_inv in Hvalue as (name & rest3 & Hname & Hvalue & ->).
  peel Hvalue.
  exists target, name. eexists. repeat split; try assumption.
  simpl. rewrite <- !app_assoc. simpl. reflexivity.
Qed.

Lemma function_call_value_is_spaced_twice_witness :
  exists target name rest,
    print (ident 2 "shade")
      (VObj 1 (Assignment (ident 2 "shade")
                 (VObj 3 (SassFunctionCall (ident 4 "darken") VUndefined))
                 VUndefined VUndefined)) = Ok target /\
    print (ident 4 "darken") VUndefined = Ok name /\
    [PToken (VStr "$"); PToken (VStr "shade"); PToken (VStr ":"); PSpace;
     PSpace; PToken (VStr "darken"); PToken (VStr "(");
     PToken (VStr ")"); PToken (VStr ";")] =
    target ++ [PToken (VStr ":"); PSpace; PSpace] ++ name ++
    PToken (VStr "(") :: rest.
Proof.
  exact (@function_call_value_is_spaced_twice 1 3 (ident 2 "shade")
           (ident 4 "darken") VUndefined VUndefined VUndefined VUndefined
           _ eq_refl).
Defined.

(* ------------------------------------------------------------------------- *)
(** ** The lines of a comment                                                 *)
(* ------------------------------------------------------------------------- *)

Lemma split_lines_length (s : string) :
  List.length (JS.split_lines s) = S (line_feeds s).
Proof.
  induction s as [| c rest IH]; [reflexivity |].
  simpl. destruct (Ascii.eqb c JS.LF); simpl; [now rewrite IH |].
  destruct (JS.split_lines rest) as [| p ps]; [discriminate IH | exact IH].
Qed.

Lemma split_lines_trailing (s : string) :
  JS.split_lines (s ++ newline_text) = JS.split_lines s ++ [""].
Proof.
  induction s as [| c rest IH]; [reflexivity |].
  simpl. destruct (Ascii.eqb c JS.LF); [now rewrite IH |].
  rewrite IH. pose proof (split_lines_not_nil rest) as Hne.
  destruct (JS.split_lines rest) as [| p ps]; [contradiction | reflexivity].
Qed.

Lemma comment_calls_newlines (lines : list string) :
  newlines_in (interleave [PNewline] (map comment_line lines)) =
  Nat.pred (List.length lines).
Proof.
  induction lines as [| line rest IH]; [reflexivity |].
  destruct rest as [| next rest']; [reflexivity |].
  change (interleave [PNewline] (map comment_line (line :: next :: rest')))
    with (comment_line line ++ [PNewline] ++
          interleave [PNewline] (map comment_line (next :: rest'))).
  change (newlines_in (comment_line line ++ [PNewline] ++
            interleave [PNewline] (map comment_line (next :: rest'))))
    with (S (newlines_in
               (interleave [PNewline] (map comment_line (next :: rest'))))).
  rewrite IH. reflexivity.
Qed.

(** X9.  A comment has one line more than its value has line feeds; the
    newlines it asks for are as many as the line feeds.  A value that ends
    with a line feed therefore ends the comment with an empty line [// ]. *)
Theorem comment_has_a_line_per_line_feed :
  (forall s, List.length (JS.split_lines s) = S (line_feeds s)) /\
  (forall r parent s calls,
      s <> "" ->
      print (VObj r (Comment (VStr s))) parent = Ok calls ->
      newlines_in calls = line_feeds s) /\
  (forall r parent s,
      print (VObj r (Comment (VStr (s ++ newline_text)))) parent =
      Ok (interleave [PNewline]
            (map comment_line (JS.split_lines s ++ [""])))).
Proof.
  split; [apply split_lines_length |]. split.
  - intros r parent s calls Hs H.
    rewrite print_Comment in H. unfold Comment.generate in H.
    apply String.eqb_neq in Hs. rewrite Hs in H.
    assert (Hcalls :
      for_each (fun line => str "// " ;; str line) newline (JS.split_lines s)
      = Ok (interleave [PNewline] (map comment_line (JS.split_lines s)))).
    { apply (for_each_ok _ [PNewline]). apply Forall2_map. reflexivity. }
    rewrite Hcalls in H. injection H as <-.
    rewrite comment_calls_newlines, split_lines_length. reflexivity.
  - intros r parent s. rewrite print_Comment. unfold Comment.generate.
    assert (Hne : (s ++ newline_text =? "")%string = false).
    { apply String.eqb_neq. destruct s; discriminate. }
    rewrite Hne, split_lines_trailing.
    apply (for_each_ok _ [PNewline]). apply Forall2_map. reflexivity.
Qed.

Lemma comment_has_a_line_per_line_feed_witness :
  newlines_in
    [PToken (VStr "// "); PToken (VStr "a"); PNewline;
     PToken (VStr "// "); PToken (VStr "")] =
  line_feeds ("a" ++ newline_text).
Proof.
  refine (proj1 (proj2 comment_has_a_line_per_line_feed) 1 VUndefined
            ("a" ++ newline_text)%string _ _ eq_refl).
  discriminate.
Defined.

(* ------------------------------------------------------------------------- *)
(** ** What the constructors accept and the generator cannot print            *)
(* ------------------------------------------------------------------------- *)

Lemma print_no_object (v parent : value) :
  is_object v = false -> print v parent = Err UnknownNodeType.
Proof. destruct v; try discriminate; reflexivity. Qed.

Lemma print_no_object_fails (v parent : value) :
  is_object v = false -> forall calls, print v parent <> Ok calls.
Proof. intros H calls. now rewrite print_no_object. Qed.

Lemma accepts_any_all (l : list value) : forallb (accepts assertAny) l = true.
Proof. induction l; [reflexivity | exact IHl]. Qed.

(** X10.  The schema admits nodes that cannot be generated.  An IfStatement
    may leave out its [consequent], and the fields checked by [assertAny]
    take any value, but the routines hand these fields to the dispatch,
    which only prints nodes: an IfStatement with no consequent, an AtReturn
    or a LogicalExpression over a value that is no node, and a
    BlockStatement with such an element are all built by their constructor
    and all make generation fail. *)
Theorem built_but_not_printable :
  (forall ref test parent calls,
      makeInvocableDefinition KIfStatement [("test", test)] ref =
      Ok (VObj ref (IfStatement test VUndefined VUndefined)) /\
      print (VObj ref (IfStatement test VUndefined VUndefined)) parent
      <> Ok calls) /\
  (forall ref v parent calls,
      is_object v = false ->
      makeInvocableDefinition KAtReturn [("argument", v)] ref =
      Ok (VObj ref (AtReturn v)) /\
      print (VObj ref (AtReturn v)) parent <> Ok calls) /\
  (forall ref v operator rhs parent calls,
      is_object v = false ->
      makeInvocableDefinition KLogicalExpression
        [("left", v); ("operator", VStr operator); ("right", rhs)] ref =
      Ok (VObj ref (LogicalExpression v (VStr operator) rhs)) /\
      print (VObj ref (LogicalExpression v (VStr operator) rhs)) parent
      <> Ok calls) /\
  (forall ref before v after parent calls,
      is_object v = false ->
      makeInvocableDefinition KBlockStatement
        [("body", VArr (before ++ v :: after))] ref =
      Ok (VObj ref (BlockStatement (VArr (before ++ v :: after)))) /\
      print (VObj ref (BlockStatement (VArr (before ++ v :: after)))) parent
      <> Ok calls).
Proof.
  split; [| split; [| split]].
  - intros ref test parent calls. split; [reflexivity |].
    unfold_routine. do 3 apply seq_fails_r. apply seq_fails_l.
    now apply print_no_object_fails.
  - intros ref v parent calls Hv. split; [reflexivity |].
    unfold_routine. do 3 apply seq_fails_r. apply seq_fails_l.
    now apply print_no_object_fails.
  - intros ref v operator rhs parent calls Hv. split; [reflexivity |].
    unfold_routine. apply seq_fails_l. now apply print_no_object_fails.
  - intros ref before v after parent calls Hv. split.
    + unfold makeInvocableDefinition. simpl.
      unfold violated. simpl. now rewrite accepts_any_all.
    + unfold_routine. apply seq_fails_r. apply seq_fails_l.
      unfold for_each_in.
      apply for_each_fails with (e := UnknownNodeType).
      now apply print_no_object.
Qed.

Lemma built_but_not_printable_witness :
  makeInvocableDefinition KAtReturn [("argument", VStr "1px")] 7 =
  Ok (VObj 7 (AtReturn (VStr "1px"))) /\
  print (VObj 7 (AtReturn (VStr "1px"))) VUndefined <> Ok [].
Proof.
  exact (proj1 (proj2 built_but_not_printable) 7 (VStr "1px") VUndefined []
           eq_refl).
Defined.

(* ------------------------------------------------------------------------- *)
(** ** Maps, lists and the remaining sigil positions                          *)
(* ------------------------------------------------------------------------- *)

(** X11.  A SassMap is a block between [(] and [)] that holds its
    properties, printed with no parent, with a comma and a newline between
    two of them and nothing after the last.  A property is its key, under
    single quotes when [quoted] is set, then [:], a space and its value;
    key and value are printed under the property, so an identifier key is
    bare. *)
Theorem map_rendering :
  (forall r properties parent pieces,
      Forall2 (fun property piece => print property VUndefined = Ok piece)
        properties pieces ->
      print (VObj r (SassMap (VArr properties))) parent =
      Ok ([PBlockStart (Some "(")] ++
          interleave [PToken (VStr ","); PNewline] pieces ++
          [PBlockEnd (Some ")")])) /\
  (forall r ri key v quoted parent value_calls,
      let node := VObj r (SassMapProperty (ident ri key) v quoted) in
      print v node = Ok value_calls ->
      (JS.truthy quoted = true ->
       print node parent =
       Ok ([PToken (VStr "'"); PToken (VStr key); PToken (VStr "'");
            PToken (VStr ":"); PSpace] ++ value_calls)) /\
      (JS.truthy quoted = false ->
       print node parent =
       Ok ([PToken (VStr key); PToken (VStr ":"); PSpace] ++ value_calls))).
Proof.
  split.
  - intros r properties parent pieces Hall. unfold_routine.
    unfold for_each_in.
    change (str "," ;; newline) with (Ok [PToken (VStr ","); PNewline]).
    rewrite (for_each_ok _ [PToken (VStr ","); PNewline] Hall).
    reflexivity.
  - intros r ri key v quoted parent value_calls node Hvalue.
    subst node. split; intro Hq; unfold_routine; rewrite Hq;
      fold (ident ri key);
      rewrite bare_under by (simpl; intuition discriminate);
      rewrite Hvalue; reflexivity.
Qed.

Lemma map_rendering_witness :
  print (VObj 2 (SassMapProperty (ident 3 "sm") (VObj 4 (SassNumber (VNum 4)))
                   (VBool true))) VUndefined =
  Ok ([PToken (VStr "'"); PToken (VStr "sm"); PToken (VStr "'");
       PToken (VStr ":"); PSpace] ++ [PToken (VNum 4)]).
Proof.
  exact (proj1 (proj2 map_rendering 2 3 "sm" (VObj 4 (SassNumber (VNum 4)))
                  (VBool true) VUndefined [PToken (VNum 4)] eq_refl)
           eq_refl).
Defined.

(** X12.  The elements of a SassList, the operands of a LogicalExpression
    and both sides of an AssignmentPattern are printed under these nodes,
    where identifiers carry the [$]: a list of identifiers renders
    [($a, $b)], a logical expression renders [$a op $b], and a default
    parameter renders [$x: ] and its default. *)
Theorem sigil_in_lists_operands_and_patterns :
  (forall r names parent,
      print (VObj r (SassList (VArr (map (fun '(ri, x) => ident ri x) names))))
        parent =
      Ok ([PToken (VStr "(")] ++
          interleave [PToken (VStr ","); PSpace]
            (map (fun '(_, x) => [PToken (VStr "$"); PToken (VStr x)])
               names) ++
          [PToken (VStr ")")])) /\
  (forall r ra a operator rb b parent,
      print (VObj r (LogicalExpression (ident ra a) operator (ident rb b)))
        parent =
      Ok [PToken (VStr "$"); PToken (VStr a); PSpace; PToken operator;
          PSpace; PToken (VStr "$"); PToken (VStr b)]) /\
  (forall r ri x right parent default_calls,
      let node := VObj r (AssignmentPattern (ident ri x) right) in
      print right node = Ok default_calls ->
      print node parent =
      Ok ([PToken (VStr "$"); PToken (VStr x); PToken (VStr ":"); PSpace] ++
          default_calls)).
Proof.
  split; [| split].
  - intros r names parent. unfold_routine. unfold for_each_in.
    rewrite comma_calls.
    rewrite (for_each_ok _ [PToken (VStr ","); PSpace]
               (@print_identifiers_under
                  (VObj r (SassList
                             (VArr (map (fun '(ri, x) => ident ri x) names))))
                  names
                  (sigil_under r (SassList _) ltac:(simpl; tauto)))).
    reflexivity.
  - intros r ra a operator rb b parent. unfold_routine.
    fold (ident ra a). fold (ident rb b).
    rewrite !ident_with_sigil by (apply sigil_under; simpl; tauto).
    reflexivity.
  - intros r ri x right parent default_calls node Hright. subst node.
    unfold_routine. fold (ident ri x).
    rewrite ident_with_sigil by (apply sigil_under; simpl; tauto).
    rewrite Hright. reflexivity.
Qed.

Lemma sigil_in_lists_operands_and_patterns_witness :
  print (VObj 1 (AssignmentPattern (ident 2 "size") (ident 3 "base")))
    VUndefined =
  Ok ([PToken (VStr "$"); PToken (VStr "size"); PToken (VStr ":"); PSpace] ++
      [PToken (VStr "$"); PToken (VStr "base")]).
Proof.
  exact (proj2 (proj2 sigil_in_lists_operands_and_patterns) 1 2 "size"
           (ident 3 "base") VUndefined _ eq_refl).
Defined.

(* ------------------------------------------------------------------------- *)
(** ** Mixin calls with a block                                               *)
(* ------------------------------------------------------------------------- *)

(** X13.  Every SassMixinCall ends with [;].  A [body] that is set is
    printed under the call right after the closing [)], with no call for a
    space in between, and before that [;]; with no body the [;] follows
    the [)]. *)
Theorem mixin_call_body_and_terminator :
  forall r id params body parent calls,
    let node := VObj r (SassMixinCall id params body) in
    print node parent = Ok calls ->
    (JS.truthy body = true ->
     exists before block,
       print body node = Ok block /\
       calls = before ++ [PToken (VStr ")")] ++ block ++
               [PToken (VStr ";")]) /\
    (JS.truthy body = false ->
     exists before,
       calls = before ++ [PToken (VStr ")"); PToken (VStr ";")]).
Proof.
  intros r id params body parent calls node H. subst node.
  rewrite print_SassMixinCall in H. unfold SassMixinCall.generate in H.
  do 2 peel H.
  apply seq_ok_inv in H as (name & rest1 & _ & H & ->). peel H.
  apply seq_ok_inv in H as (args & rest2 & _ & H & ->). peel H.
  apply seq_ok_inv in H as (block & rest3 & Hblock & H & ->).
  injection H as <-.
  split; intro Hbody; rewrite Hbody in Hblock.
  - exists ([PToken (VStr "@include"); PSpace] ++ name ++
            [PToken (VStr "(")] ++ args), block.
    split; [exact Hblock |].
    simpl. rewrite <- !app_assoc. reflexivity.
  - injection Hblock as <-.
    exists ([PToken (VStr "@include"); PSpace] ++ name ++
            [PToken (VStr "(")] ++ args).
    simpl. rewrite <- !app_assoc. reflexivity.
Qed.

Lemma mixin_call_body_and_terminator_witness :
  exists before,
    [PToken (VStr "@include"); PSpace; PToken (VStr "clearfix");
     PToken (VStr "("); PToken (VStr ")"); PToken (VStr ";")] =
    before ++ [PToken (VStr ")"); PToken (VStr ";")].
Proof.
  exact (proj2 (@mixin_call_body_and_terminator 1 (ident 2 "clearfix")
                  VUndefined VUndefined VUndefined _ eq_refl) eq_refl).
Defined.

(* ------------------------------------------------------------------------- *)
(** ** The text of a style sheet                                              *)
(* ------------------------------------------------------------------------- *)

Lemma run_from_line_start (calls : list call) (b : string) :
  Printer.run calls (Printer.mk b 0 true false) =
  extend b (Printer.run calls Printer.create).
Proof.
  rewrite <- run_extend. unfold extend, Printer.create. simpl.
  now rewrite append_empty_r.
Qed.

Lemma run_lines (pieces : list (list call)) (b : string) :
  Forall well_nested pieces ->
  Printer.buffer
    (Printer.run (interleave [PNewline] pieces) (Printer.mk b 0 true false))
  =
  (b ++ String.concat newline_text (map text_of pieces))%string.
Proof.
  intro Hall. revert b.
  induction Hall as [| piece rest Hpiece Hrest IH]; intro b.
  - simpl. now rewrite append_empty_r.
  - destruct rest as [| next rest'].
    + simpl interleave. rewrite run_from_line_start. reflexivity.
    + change (interleave [PNewline] (piece :: next :: rest'))
        with (piece ++ [PNewline] ++ interleave [PNewline] (next :: rest')).
      rewrite !run_app, run_from_line_start.
      assert (Hdepth :
        Printer.indentLevel (Printer.run piece Printer.create) = 0)
        by (apply indent_after_run; apply Hpiece).
      unfold extend. rewrite Hdepth.
      change (Printer.run [PNewline]
                (Printer.mk (b ++ Printer.buffer
                                    (Printer.run piece Printer.create))%string
                   0 (Printer.lineStart (Printer.run piece Printer.create))
                   (Printer.pendingSpace
                      (Printer.run piece Printer.create))))
        with (Printer.mk
                ((b ++ Printer.buffer (Printer.run piece Printer.create))
                 ++ newline_text)%string 0 true false).
      rewrite IH.
      change (map text_of (piece :: next :: rest'))
        with (text_of piece :: text_of next :: map text_of rest').
      change (String.concat newline_text
                (text_of piece :: text_of next :: map text_of rest'))
        with (text_of piece ++ newline_text ++
              String.concat newline_text
                (text_of next :: map text_of rest'))%string.
      unfold text_of at 3, Printer.get.
      rewrite !append_assoc. reflexivity.
Qed.

(** X14.  The text of a style sheet is the texts of its children, each
    rendered on its own with the sheet as its parent, joined by line feeds:
    a child starts at the beginning of a line at depth 0, whatever came
    before it, and leaves the depth at 0. *)
Theorem style_sheet_text_is_joined_children :
  forall r children parent pieces,
    let sheet := VObj r (StyleSheet (VArr children)) in
    Forall2 (fun child piece => print child sheet = Ok piece)
      children pieces ->
    print sheet parent = Ok (interleave [PNewline] pieces) /\
    generate sheet parent =
    Ok (String.concat newline_text (map text_of pieces)).
Proof.
  intros r children parent pieces sheet Hall.
  assert (Hcalls : print sheet parent = Ok (interleave [PNewline] pieces)).
  { subst sheet. unfold_routine. unfold for_each_in.
    exact (for_each_ok _ [PNewline] Hall). }
  split; [exact Hcalls |].
  unfold generate, generate_from. rewrite Hcalls. f_equal.
  unfold Printer.get, Printer.create. rewrite run_lines; [reflexivity |].
  clear Hcalls. generalize dependent sheet. intros sheet Hall.
  induction Hall as [| child piece cs ps Hpiece _ IH];
    constructor; [| exact IH].
  exact (proj1 (print_well_nested child) sheet piece Hpiece).
Qed.

Lemma style_sheet_text_is_joined_children_witness :
  generate small_sheet VUndefined =
  Ok (String.concat newline_text
        (map text_of
           [[PToken (VStr "$"); PToken (VStr "gap"); PToken (VStr ":"); PSpace;
             PToken (VNum 4); PToken (VStr ";"); PNewline];
            [PToken (VStr ".box, .card"); PSpace; PBlockStart None;
             PToken (VStr "color"); PToken (VStr ":"); PSpace;
             PToken (VStr "red"); PToken (VStr ";"); PBlockEnd None]])).
Proof.
  refine (proj2 (@style_sheet_text_is_joined_children 10 _ VUndefined _ _)).
  repeat constructor.
Defined.

(* ------------------------------------------------------------------------- *)
(** ** Collections that are missing                                           *)
(* ------------------------------------------------------------------------- *)

(** X15.  The routines differ in what they do with a collection that is not
    there.  The [body] of a BlockStatement, the [elements] of a SassList,
    the [properties] of a SassMap, the [declarations] of a Rule and the
    [children] of a StyleSheet are read without a check: when they are
    [undefined] or [null] the run fails with a TypeError.  The [params] and
    [arguments] of functions, mixins and calls are looped over only when
    they are an array: any other value prints like the empty array.  The
    [children] of an AtRule are tested first: without them the at-rule is
    its prelude. *)
Theorem missing_collections :
  (forall r parent missing selectors,
      JS.nullish missing = true ->
      print (VObj r (BlockStatement missing)) parent = Err TypeError /\
      print (VObj r (SassList missing)) parent = Err TypeError /\
      print (VObj r (SassMap missing)) parent = Err TypeError /\
      print (VObj r (Rule missing (VArr selectors))) parent = Err TypeError /\
      print (VObj r (StyleSheet missing)) parent = Err TypeError) /\
  (forall r parent other id body,
      JS.isArray other = false ->
      print (VObj r (CallExpression id other)) parent =
      print (VObj r (CallExpression id (VArr []))) parent /\
      print (VObj r (SassFunctionCall id other)) parent =
      print (VObj r (SassFunctionCall id (VArr []))) parent /\
      print (VObj r (SassMixinCall id other body)) parent =
      print (VObj r (SassMixinCall id (VArr []) body)) parent /\
      print (VObj r (SassFunction id other body)) parent =
      print (VObj r (SassFunction id (VArr []) body)) parent /\
      print (VObj r (SassMixin id other body)) parent =
      print (VObj r (SassMixin id (VArr []) body)) parent) /\
  (forall r parent name media missing,
      JS.nullish missing = true ->
      print (VObj r (AtRule name media missing)) parent =
      Ok (prelude name media)).
Proof.
  split; [| split].
  - intros r parent missing selectors H.
    destruct missing; try discriminate H; repeat split; reflexivity.
  - intros r parent other id body H.
    assert (Hbody :
      print body (VObj r (SassMixinCall id other body)) =
      print body (VObj r (SassMixinCall id (VArr []) body))).
    { apply (proj1 (print_same_context body)).
      repeat split; try reflexivity;
        try (intros (k & Hk & Hin); injection Hk as <-; simpl in Hin;
             repeat (destruct Hin as [Hin | Hin]; [discriminate Hin |]);
             contradiction);
        intro Hif; discriminate Hif. }
    repeat split; unfold_routine; rewrite ?Hbody;
      destruct other; try discriminate H; reflexivity.
  - intros r parent name media missing H.
    destruct missing; try discriminate H; reflexivity.
Qed.

Lemma missing_collections_witness :
  print (VObj 1 (StyleSheet VUndefined)) VUndefined = Err TypeError /\
  print (VObj 1 (CallExpression (ident 2 "f") VNull)) VUndefined =
  print (VObj 1 (CallExpression (ident 2 "f") (VArr []))) VUndefined /\
  print (VObj 1 (AtRule (VStr "media") (VStr "print") VUndefined)) VUndefined
  = Ok (prelude (VStr "media") (VStr "print")).
Proof.
  destruct missing_collections as (Hunchecked & Hguarded & Hat_rule).
  split; [| split].
  - exact (proj2 (proj2 (proj2 (proj2
             (Hunchecked 1 VUndefined VUndefined [] eq_refl))))).
  - exact (proj1 (Hguarded 1 VUndefined VNull (ident 2 "f") VUndefined
                    eq_refl)).
  - exact (Hat_rule 1 VUndefined (VStr "media") (VStr "print") VUndefined
             eq_refl).
Defined.
